(** * Routing capture for Mixture-of-Experts inference

    A shallow embedding of [src/inference/runner.py]: the [MoERunner]
    base class with its class-level [activated_experts] dictionary, the
    factory [MoERunner.from_name], and the two runner variants
    [OpenMoERunner] (routing captured by hooks) and [MixtralRunner]
    (routing re-derived from the router logits of the forward pass).

    Python objects that are shared and mutated (the [defaultdict(list)]
    accumulators) live in an explicit store and are referred to by
    address; code that can raise returns a [result]; calls into torch
    and transformers are recorded in a trace of events. *)

From stdpp Require Import base option list gmap strings pretty sorting.
From Stdlib Require Import ZArith Lia.

Set Warnings "-clear-no-such-hyp".
Open Scope Z_scope.
Open Scope nat_scope.

(** ** Tensors *)

(** A 2-D tensor: [t_rows] holds one row per token, every row has
    [t_cols] entries.  The column count is kept apart from the rows so
    that a tensor of shape (0, n) still knows n, as torch does. *)
Record Tensor (A : Type) := mkTensor {
  t_cols : nat;
  t_rows : list (list A);
}.
Arguments mkTensor {A} _ _.
Arguments t_cols {A} _.
Arguments t_rows {A} _.

Definition tensor_wf {A} (t : Tensor A) : Prop :=
  Forall (λ row, length row = t_cols t) (t_rows t).

(** [torch.LongTensor] of selected expert indices. *)
Abbreviation IndexTensor := (Tensor nat).

Inductive Dtype := torch_float16 | torch_float.

Inductive Device := CPU | CUDA.

(** The token-id and mask tensors handed to a runner, with the device
    they live on. *)
Record LongTensor := mkLong {
  lt_data : list (list Z);
  lt_device : Device;
}.

(** [t.cuda()] *)
Definition cuda (t : LongTensor) : LongTensor :=
  mkLong (lt_data t) CUDA.

(** ** Exceptions and results *)

Inductive Exn :=
  | NotImplementedError
  | RuntimeError (msg : string)
  | OSError (msg : string)
  | TypeError (msg : string)
  | AttributeError (msg : string).

Inductive result (A : Type) :=
  | Ok (a : A)
  | Raise (e : Exn).
Arguments Ok {A} _.
Arguments Raise {A} _.

(** ** The torch primitives used by the runners *)

(** What torch documents of [topk] along the last dimension, for one row
    and the order [le] ([le x y]: x is at most y): the answer lists [k]
    distinct positions of the row, an entry listed earlier is at least
    any entry listed later, and every listed entry is at least every
    entry left out.  Which of several equal entries is taken, and in
    which order equal entries are listed, is not part of it. *)
Definition at_least {A} (le : A → A → bool) (row : list A) (i j : nat) : Prop :=
  ∃ x y, row !! i = Some x ∧ row !! j = Some y ∧ le y x = true.

Definition largest {A} (le : A → A → bool) (k : nat) (row : list A)
    (sel : list nat) : Prop :=
  length sel = k ∧ NoDup sel ∧ Forall (λ i, i < length row) sel ∧
  (∀ p q i j, p < q → sel !! p = Some i → sel !! q = Some j →
     at_least le row i j) ∧
  (∀ i j, i ∈ sel → j < length row → j ∉ sel → at_least le row i j).

(** The element type of floating-point tensors is left abstract, with
    the order [torch.topk] compares by ([scalar_le x y]: x is at most y).
    [torch.nn.functional.softmax] is an opaque primitive of the input
    tensor, the dimension and the dtype it computes in.  [torch.topk] is
    a primitive too: [torch_topk_indices input k] are the positions
    [torch.topk(input, k, dim=-1)] answers with, row by row, when [k]
    does not exceed the last dimension. *)
Class Torch := {
  scalar : Type;
  scalar_le : scalar → scalar → bool;
  F_softmax : Tensor scalar → Z → Dtype → Tensor scalar;
  torch_topk_indices : Tensor scalar → nat → list (list nat);
}.

(** What the embedding relies on about these primitives: the order is a
    total preorder, softmax keeps the shape of its input, and top-k
    answers every row with [k] of its largest entries, largest first. *)
Class TorchLaws `{Torch} := {
  scalar_le_total x y : scalar_le x y = true ∨ scalar_le y x = true;
  scalar_le_trans x y z :
    scalar_le x y = true → scalar_le y z = true → scalar_le x z = true;
  F_softmax_cols t dim dtype : t_cols (F_softmax t dim dtype) = t_cols t;
  F_softmax_rows t dim dtype :
    length (t_rows (F_softmax t dim dtype)) = length (t_rows t);
  F_softmax_wf t dim dtype : tensor_wf t → tensor_wf (F_softmax t dim dtype);
  torch_topk_rows t k :
    k ≤ t_cols t → length (torch_topk_indices t k) = length (t_rows t);
  torch_topk_largest t k token row :
    tensor_wf t → k ≤ t_cols t → t_rows t !! token = Some row →
    ∃ sel, torch_topk_indices t k !! token = Some sel ∧
           largest scalar_le k row sel;
}.

Section topk.
Context `{Torch}.

(** [torch.topk(input, k, dim=-1)]: the values and the indices of the
    primitive's answer, [k] per row; it raises when [k] exceeds the size
    of the last dimension. *)
Definition torch_topk (input : Tensor scalar) (k : nat)
  : result (Tensor scalar * IndexTensor) :=
  if decide (k ≤ t_cols input) then
    let indices := torch_topk_indices input k in
    Ok (mkTensor k
          (zip_with (λ row sel, omap (λ i, row !! i) sel)
             (t_rows input) indices),
        mkTensor k indices)
  else Raise (RuntimeError "selected index k out of range").
End topk.

(** A top-k for the synthetic provider below, by sorting.  The
    positions of a row are sorted by weight, larger first, equal weights
    with the higher position first, and cut after [k]; what is kept is
    then listed by weight, larger first, equal weights in position
    order.  It keeps to what torch documents and does not favour the
    lowest index: of four equal weights it answers with positions 2
    and 3. *)
Section sorted_topk.
Context {A : Type} (le : A → A → bool).

(** [ranks_before high (i, x) (j, y)]: position i with weight x is
    listed no later than position j with weight y, that is x is strictly
    larger, or they tie and i is not the smaller position (when [high])
    or not the larger one (otherwise). *)
Definition ranks_before_b (high : bool) (a b : nat * A) : bool :=
  le b.2 a.2
  && (negb (le a.2 b.2) || (if high then b.1 <=? a.1 else a.1 <=? b.1)).

Definition ranks_before (high : bool) (a b : nat * A) : Prop :=
  ranks_before_b high a b = true.

Global Instance ranks_before_dec high : RelDecision (ranks_before high).
Proof. intros a b. unfold ranks_before. apply _. Defined.

(** The positions of one row, best first, higher positions first among
    equal weights. *)
Definition ranked (row : list A) : list (nat * A) :=
  merge_sort (ranks_before true) (imap pair row).

Definition topk_row (k : nat) (row : list A) : list (nat * A) :=
  merge_sort (ranks_before false) (take k (ranked row)).
End sorted_topk.

(** ** The store of accumulators, and the world a runner acts on *)

(** [LayerSelectedExperts = Dict[str, List[torch.LongTensor]]]: layer
    name to the selected experts of every call so far, oldest first.
    The dictionaries are [defaultdict(list)] objects: reading a missing
    key gives the empty list. *)
Abbreviation LayerSelectedExperts := (gmap string (list IndexTensor)).

(** Identity of a dictionary object. *)
Abbreviation addr := nat (only parsing).

(** The arguments of a forward pass, after device placement.  The two
    tensors are [None] when the caller left them at their defaults; the
    extra keyword arguments never name [input_ids] or [attention_mask],
    which are parameters of [__call__] itself. *)
Record Inputs := mkInputs {
  in_input_ids : option LongTensor;
  in_attention_mask : option LongTensor;
  in_kwargs : list (string * Z);
}.

(** Calls that leave the runner: into the tokenizer and model providers
    and into the model itself. *)
Inductive Event :=
  | TokenizerFromPretrained (name : string) (model_max_length : Z)
  | ConfigFromPretrained (name : string)
  | SetOpenMoeArgs (num_experts moe_layer_interval : nat) (enable_kernel : bool)
  | ModelFromPretrained (name : string) (device_map : string)
      (torch_dtype : Dtype) (resume_download : bool)
  | SetPadToken (value : option string)
  | SetRouterHook (name : string)
  | Forward (name : string) (inputs : Inputs) (output_router_logits : bool)
      (grad_enabled : bool).

Record World := mkWorld {
  w_heap : gmap addr LayerSelectedExperts;   (* the dictionary objects *)
  w_next : addr;                             (* next fresh identity *)
  w_grad_enabled : bool;                     (* torch.is_grad_enabled() *)
  w_cuda_available : bool;                   (* torch.cuda.is_available() *)
  w_trace : list Event;                      (* calls made so far, oldest first *)
}.

(** [MoERunner.activated_experts = defaultdict(list)]: one dictionary,
    created when the class body runs, before any runner exists. *)
Definition MoERunner_activated_experts : addr := 0.

(** The world once the module is imported: the class-level dictionary
    exists and is empty, gradient tracking is on (the torch default). *)
Definition world_at_import (cuda_available : bool) : World :=
  mkWorld {[ MoERunner_activated_experts := ∅ ]} 1 true cuda_available [].

(** The dictionary found at an address. *)
Definition deref (w : World) (a : addr) : LayerSelectedExperts :=
  default ∅ (w_heap w !! a).

(** [d[key]] on a [defaultdict(list)], read-only view. *)
Definition entries (d : LayerSelectedExperts) (key : string) : list IndexTensor :=
  default [] (d !! key).

Definition set_heap (h : gmap addr LayerSelectedExperts) (w : World) : World :=
  mkWorld h (w_next w) (w_grad_enabled w) (w_cuda_available w) (w_trace w).

Definition set_grad_enabled (b : bool) (w : World) : World :=
  mkWorld (w_heap w) (w_next w) b (w_cuda_available w) (w_trace w).

(** ** Computations: world passing with exceptions *)

Definition M (A : Type) : Type := World → result A * World.

Definition ret {A} (a : A) : M A := λ w, (Ok a, w).

Definition bind {A B} (c : M A) (k : A → M B) : M B := λ w,
  match c w with
  | (Ok a, w') => k a w'
  | (Raise e, w') => (Raise e, w')
  end.

Notation "x ←! c ;; k" := (bind c (λ x, k))
  (at level 100, c at next level, right associativity).
Notation "c ;;! k" := (bind c (λ _, k))
  (at level 100, right associativity).

Definition raise {A} (e : Exn) : M A := λ w, (Raise e, w).

(** The world with one more call in its trace. *)
Definition logged (e : Event) (w : World) : World :=
  mkWorld (w_heap w) (w_next w) (w_grad_enabled w) (w_cuda_available w)
    (w_trace w ++ [e]).

Definition emit (e : Event) : M unit := λ w, (Ok (), logged e w).

(** A call to an outside function: it is logged, then returns or raises. *)
Definition call {A} (e : Event) (r : result A) : M A :=
  emit e ;;! λ w, (r, w).

(** [defaultdict(list)()] *)
Definition new_defaultdict : M addr := λ w,
  (Ok (w_next w),
   mkWorld (<[w_next w := ∅]> (w_heap w)) (S (w_next w))
     (w_grad_enabled w) (w_cuda_available w) (w_trace w)).

(** [d[key].append(x)] on the [defaultdict(list)] at address [a]. *)
Definition append_entry (a : addr) (key : string) (x : IndexTensor) : M unit := λ w,
  let d := deref w a in
  (Ok (), set_heap (<[a := <[key := entries d key ++ [x]]> d]> (w_heap w)) w).

Definition torch_cuda_is_available : M bool := λ w, (Ok (w_cuda_available w), w).

Definition torch_is_grad_enabled : M bool := λ w, (Ok (w_grad_enabled w), w).

(** The decorator [@torch.no_grad()]: the body runs with gradient
    tracking off and the previous mode is put back afterwards, also when
    the body raises. *)
Definition torch_no_grad {A} (body : M A) : M A := λ w,
  let prev := w_grad_enabled w in
  let '(r, w') := body (set_grad_enabled false w) in
  (r, set_grad_enabled prev w').

(** [t.cuda()] on an argument that may be [None]. *)
Definition cuda_of (t : option LongTensor) : M (option LongTensor) :=
  match t with
  | Some t => ret (Some (cuda t))
  | None => raise (AttributeError "'NoneType' object has no attribute 'cuda'")
  end.

(** The lines both [__call__]s open with:
    [if torch.cuda.is_available(): input_ids = input_ids.cuda();
     attention_mask = attention_mask.cuda()]. *)
Definition place_inputs (input_ids attention_mask : option LongTensor)
  : M (option LongTensor * option LongTensor) :=
  available ←! torch_cuda_is_available ;;
  if available then
    input_ids ←! cuda_of input_ids ;;
    attention_mask ←! cuda_of attention_mask ;;
    ret (input_ids, attention_mask)
  else ret (input_ids, attention_mask).

(** A call [f(.., name=.., **kwargs)]: when [kwargs] holds [name] as
    well, Python raises a [TypeError] before [f] is entered.  The
    message is given without the name of the callee it starts with. *)
Definition merge_keyword (name : string) (kwargs : list (string * Z)) : M unit :=
  if decide (name ∈ kwargs.*1) then
    raise (TypeError
             ("got multiple values for keyword argument '" +:+ name +:+ "'"))
  else ret ().

(** ** Tokenizer and models *)

(** [PreTrainedTokenizer], as far as the runners touch it. *)
Record PreTrainedTokenizer := mkTokenizer {
  tok_name : string;
  tok_model_max_length : Z;
  pad_token : option string;
  eos_token : option string;
}.

Section models.
Context `{Torch}.

(** [MoeCausalLMOutputWithPast]: the runner reads [router_logits], one
    score tensor (tokens x experts) per layer, in layer order. *)
Record MoeCausalLMOutputWithPast := mkOutput {
  router_logits : list (Tensor scalar);
}.

(** [model.config] of a Mixtral model. *)
Record MixtralConfig := mkMixtralConfig {
  num_hidden_layers : nat;
  num_local_experts : nat;
  num_experts_per_tok : nat;
}.

(** [MixtralForCausalLM]: a configuration and the forward computation
    [model(input_ids=.., attention_mask=.., output_router_logits=.., **kwargs)],
    which returns an output or raises. *)
Record MixtralForCausalLM := mkMixtral {
  mx_config : MixtralConfig;
  mx_forward : Inputs → bool → result MoeCausalLMOutputWithPast;
}.

(** The configuration fields of an OpenMoE model that the constructor
    reads and overrides. *)
Record OpenMoeConfig := mkOpenMoeConfig {
  cfg_num_experts : nat;
  cfg_moe_layer_interval : nat;
  cfg_enable_kernel : bool;
}.

(** Modelled from the spec: [models/modelling_openmoe.py] is missing.
    The model has router submodules, each with the layer identifier its
    captured decisions are filed under; a forward pass either raises on
    its inputs or runs every router once, in order, and a router then
    calls the observation points registered on it with its decision
    ([om_selected]: the selected expert indices read off its return
    value).  [om_hooks] pairs a router with the accumulator its
    observer appends to. *)
Record OpenMoeForCausalLM := mkOpenMoe {
  om_routers : list string;
  om_selected : string → Inputs → IndexTensor;
  om_rejects : Inputs → option Exn;
  om_hooks : list (string * addr);
}.

(** The tokenizer and model providers (transformers and the model
    hub): given identifiers and options they return an object or
    raise. *)
Class Transformers := {
  AutoTokenizer_from_pretrained : string → Z → result PreTrainedTokenizer;
  AutoConfig_from_pretrained : string → result OpenMoeConfig;
  OpenMoeForCausalLM_from_pretrained :
    string → OpenMoeConfig → string → Dtype → result OpenMoeForCausalLM;
  MixtralForCausalLM_from_pretrained :
    string → string → Dtype → bool → result MixtralForCausalLM;
}.
End models.

(** ** Runners *)

Section runners.
Context `{Torch} `{!Transformers}.

(** An [OpenMoERunner] instance: [__init__] binds [activated_experts]
    on the instance. *)
Record OpenMoERunner := mkOpenMoERunner {
  om_model_name : string;
  om_tokenizer : PreTrainedTokenizer;
  om_model : OpenMoeForCausalLM;
  om_activated_experts : addr;
}.

(** A [MixtralRunner] instance: [__init__] binds [model_name],
    [tokenizer] and [model], and nothing else. *)
Record MixtralRunner := mkMixtralRunner {
  mx_model_name : string;
  mx_tokenizer : PreTrainedTokenizer;
  mx_model : MixtralForCausalLM;
}.

Inductive MoERunner :=
  | AnOpenMoERunner (self : OpenMoERunner)
  | AMixtralRunner (self : MixtralRunner).

(** [self.activated_experts]: the instance attribute when the instance
    has one, otherwise the attribute of the class [MoERunner]. *)
Definition activated_experts (self : MoERunner) : addr :=
  match self with
  | AnOpenMoERunner r => om_activated_experts r
  | AMixtralRunner _ => MoERunner_activated_experts
  end.

(** Modelled from the spec: [inference/utils.py] is missing.
    [set_openmoe_args] overrides the expert count, the layer interval
    and the optimized-kernel switch of the configuration. *)
Definition set_openmoe_args (config : OpenMoeConfig)
    (num_experts moe_layer_interval : nat) (enable_kernel : bool)
  : M OpenMoeConfig :=
  emit (SetOpenMoeArgs num_experts moe_layer_interval enable_kernel) ;;!
  ret (mkOpenMoeConfig num_experts moe_layer_interval enable_kernel).

(** Modelled from the spec: [inference/hooks.py] is missing.
    [set_router_hook(model)] makes a new empty accumulator, registers
    on every router submodule an observation point that appends the
    router's decision to the accumulator under the router's layer
    identifier, and returns the accumulator with one handle per
    registration.  Registration changes the model object; here the
    changed model is returned as well. *)
Definition set_router_hook (name : string) (model : OpenMoeForCausalLM)
  : M (OpenMoeForCausalLM * addr * list nat) :=
  emit (SetRouterHook name) ;;!
  acc ←! new_defaultdict ;;
  let hooks := (λ r, (r, acc)) <$> om_routers model in
  ret (mkOpenMoe (om_routers model) (om_selected model) (om_rejects model)
         (om_hooks model ++ hooks),
       acc, seq (length (om_hooks model)) (length hooks)).

(** Modelled from the spec: a router that has run calls its
    observation points, registration order. *)
Fixpoint run_hooks (hooks : list (string * addr)) (router : string)
    (decision : IndexTensor) : M unit :=
  match hooks with
  | [] => ret ()
  | (r, acc) :: hooks =>
      (if decide (r = router) then append_entry acc router decision
       else ret ()) ;;!
      run_hooks hooks router decision
  end.

Fixpoint run_routers (model : OpenMoeForCausalLM) (routers : list string)
    (inputs : Inputs) : M unit :=
  match routers with
  | [] => ret ()
  | r :: routers =>
      run_hooks (om_hooks model) r (om_selected model r inputs) ;;!
      run_routers model routers inputs
  end.

(** Modelled from the spec: the forward pass of the OpenMoE model. *)
Definition OpenMoe_forward (name : string) (model : OpenMoeForCausalLM)
    (inputs : Inputs) : M unit :=
  grad ←! torch_is_grad_enabled ;;
  emit (Forward name inputs false grad) ;;!
  match om_rejects model inputs with
  | Some e => raise e
  | None => run_routers model (om_routers model) inputs
  end.

(** The forward pass of the Mixtral model. *)
Definition Mixtral_forward (name : string) (model : MixtralForCausalLM)
    (inputs : Inputs) (output_router_logits : bool)
  : M MoeCausalLMOutputWithPast :=
  grad ←! torch_is_grad_enabled ;;
  call (Forward name inputs output_router_logits grad)
       (mx_forward model inputs output_router_logits).

(** [OpenMoERunner.__init__(self, seq_len, **kwargs)] *)
Definition OpenMoERunner_init (seq_len : Z) : M OpenMoERunner :=
  let model_name := "OrionZheng/openmoe-8b-1T" in
  tokenizer ←! call (TokenizerFromPretrained "google/umt5-small" seq_len)
                 (AutoTokenizer_from_pretrained "google/umt5-small" seq_len) ;;
  config ←! call (ConfigFromPretrained model_name)
              (AutoConfig_from_pretrained model_name) ;;
  config ←! set_openmoe_args config (cfg_num_experts config)
              (cfg_moe_layer_interval config) false ;;
  model ←! call (ModelFromPretrained model_name "auto" torch_float16 false)
             (OpenMoeForCausalLM_from_pretrained model_name config "auto"
                torch_float16) ;;
  hooked ←! set_router_hook model_name model ;;
  let '(model, activated, hooks) := hooked in
  ret (mkOpenMoERunner model_name tokenizer model activated).

(** [OpenMoERunner.__call__], under [@torch.no_grad()].  [input_ids]
    and [attention_mask] default to [None]. *)
Definition OpenMoERunner_call (self : OpenMoERunner)
    (input_ids attention_mask : option LongTensor)
    (kwargs : list (string * Z)) : M addr :=
  torch_no_grad (
    moved ←! place_inputs input_ids attention_mask ;;
    let '(input_ids, attention_mask) := moved in
    OpenMoe_forward (om_model_name self) (om_model self)
      (mkInputs input_ids attention_mask kwargs) ;;!
    ret (activated_experts (AnOpenMoERunner self))).

(** [MixtralRunner.__init__(self, seq_len, use_quant=True, **kwargs)];
    [use_quant] is [None] when the caller does not pass it. *)
Definition MixtralRunner_init (seq_len : Z) (use_quant : option bool)
  : M MixtralRunner :=
  let use_quant := default true use_quant in
  let model_name :=
    if use_quant then "TheBloke/mixtral-8x7b-v0.1-AWQ"
    else "mistralai/Mixtral-8x7B-v0.1" in
  tokenizer ←! call (TokenizerFromPretrained model_name seq_len)
                 (AutoTokenizer_from_pretrained model_name seq_len) ;;
  emit (SetPadToken (eos_token tokenizer)) ;;!
  let tokenizer :=
    mkTokenizer (tok_name tokenizer) (tok_model_max_length tokenizer)
      (eos_token tokenizer) (eos_token tokenizer) in
  model ←! call (ModelFromPretrained model_name "auto" torch_float16 true)
             (MixtralForCausalLM_from_pretrained model_name "auto"
                torch_float16 true) ;;
  ret (mkMixtralRunner model_name tokenizer model).

(** [f"layer_{i}.router"] *)
Definition layer_key (i : nat) : string :=
  "layer_" +:+ pretty i +:+ ".router".

(** The loop [for i, layer_router in enumerate(outputs.router_logits)]
    of [MixtralRunner.__call__], from index [i] on. *)
Fixpoint record_layers (self : MixtralRunner) (i : nat)
    (logits : list (Tensor scalar)) : M unit :=
  match logits with
  | [] => ret ()
  | layer_router :: logits =>
      let routing_weights := F_softmax layer_router 1 torch_float in
      top ←! (λ w,
          (torch_topk routing_weights
             (num_experts_per_tok (mx_config (mx_model self))), w)) ;;
      let '(_, selected_experts) := top in
      append_entry (activated_experts (AMixtralRunner self))
        (layer_key i) selected_experts ;;!
      record_layers self (S i) logits
  end.

(** [MixtralRunner.__call__]; its [@torch.no_grad()] is commented out.
    [input_ids] and [attention_mask] default to [None]; the model is
    called with [output_router_logits=True] next to [**kwargs]. *)
Definition MixtralRunner_call (self : MixtralRunner)
    (input_ids attention_mask : option LongTensor)
    (kwargs : list (string * Z)) : M addr :=
  moved ←! place_inputs input_ids attention_mask ;;
  let '(input_ids, attention_mask) := moved in
  merge_keyword "output_router_logits" kwargs ;;!
  outputs ←! Mixtral_forward (mx_model_name self) (mx_model self)
               (mkInputs input_ids attention_mask kwargs) true ;;
  record_layers self 0 (router_logits outputs) ;;!
  ret (activated_experts (AMixtralRunner self)).

(** [MoERunner.__call__] of the base class, which both variants
    override. *)
Definition MoERunner_base_call (input_ids attention_mask : option LongTensor)
    (kwargs : list (string * Z)) : M addr :=
  raise NotImplementedError.

(** [runner(input_ids, attention_mask, **kwargs)] on a runner the
    factory can return, dispatched on the class of the runner. *)
Definition MoERunner_call (self : MoERunner)
    (input_ids attention_mask : option LongTensor)
    (kwargs : list (string * Z)) : M addr :=
  match self with
  | AnOpenMoERunner r => OpenMoERunner_call r input_ids attention_mask kwargs
  | AMixtralRunner r => MixtralRunner_call r input_ids attention_mask kwargs
  end.

(** The keyword arguments [from_name] forwards to the constructors.
    [MixtralRunner] takes [use_quant] from them; both constructors
    ignore every other keyword. *)
Record CtorKwargs := mkCtorKwargs {
  kw_use_quant : option bool;
}.

(** [MoERunner.from_name(name, seq_len, **kwargs)] *)
Definition from_name (name : string) (seq_len : Z) (kwargs : CtorKwargs)
  : M MoERunner :=
  if decide (name = "openmoe") then
    r ←! OpenMoERunner_init seq_len ;; ret (AnOpenMoERunner r)
  else if decide (name = "mixtral") then
    r ←! MixtralRunner_init seq_len (kw_use_quant kwargs) ;;
    ret (AMixtralRunner r)
  else raise NotImplementedError.
End runners.

(** ** A synthetic provider

    Integer scores with the usual order, a shape-keeping, order-keeping
    stand-in for softmax and the sorting top-k above; a 2-layer,
    4-expert, top-2 Mixtral model that returns fixed router logits
    without equal scores; an OpenMoE model with two routers. *)
Module Double.
#[global] Instance torch : Torch := {|
  scalar := Z;
  scalar_le := Z.leb;
  F_softmax := λ t _ _, t;
  torch_topk_indices := λ t k, (λ row, (topk_row Z.leb k row).*1) <$> t_rows t;
|}.

Definition logits : Tensor (@scalar torch) :=
  mkTensor 4 [[20; 5; 3; 1]; [1; 3; 20; 5]]%Z.

Definition outputs : MoeCausalLMOutputWithPast :=
  mkOutput [logits; logits].

Definition mixtral : MixtralForCausalLM :=
  mkMixtral (mkMixtralConfig 2 4 2)
    (λ _ output_router_logits,
       Ok (if output_router_logits then outputs else mkOutput [])).

Definition openmoe : OpenMoeForCausalLM :=
  mkOpenMoe ["blocks.0.router"; "blocks.1.router"]
    (λ r _, if decide (r = "blocks.0.router") then mkTensor 2 [[0; 1]; [2; 0]]
            else mkTensor 2 [[3; 1]; [1; 2]])
    (λ _, None) [].

#[global] Instance transformers : Transformers := {|
  AutoTokenizer_from_pretrained name seq_len :=
    Ok (mkTokenizer name seq_len None (Some "</s>"));
  AutoConfig_from_pretrained _ := Ok (mkOpenMoeConfig 32 4 true);
  OpenMoeForCausalLM_from_pretrained _ _ _ _ := Ok openmoe;
  MixtralForCausalLM_from_pretrained _ _ _ _ := Ok mixtral;
|}.

(** The OpenMoE runner as [OpenMoERunner(seq_len)] builds it here, in
    the world after import. *)
Definition openmoe_runner : OpenMoERunner :=
  mkOpenMoERunner "OrionZheng/openmoe-8b-1T"
    (mkTokenizer "google/umt5-small" 16 None (Some "</s>"))
    (mkOpenMoe (om_routers openmoe) (om_selected openmoe)
       (om_rejects openmoe)
       [("blocks.0.router", 1); ("blocks.1.router", 1)])
    1.

(** The world after [from_name("mixtral", 16)] right after import. *)
Definition built : World :=
  mkWorld {[ MoERunner_activated_experts := ∅ ]} 1 true false
    [TokenizerFromPretrained "TheBloke/mixtral-8x7b-v0.1-AWQ" 16;
     SetPadToken (Some "</s>");
     ModelFromPretrained "TheBloke/mixtral-8x7b-v0.1-AWQ" "auto"
       torch_float16 true].

Definition ids : LongTensor := mkLong [[5; 7]]%Z CPU.
Definition mask : LongTensor := mkLong [[1; 1]]%Z CPU.

(** A Mixtral runner as [MixtralRunner(seq_len)] builds it here. *)
Definition runner (use_quant : bool) : MixtralRunner :=
  mkMixtralRunner
    (if use_quant then "TheBloke/mixtral-8x7b-v0.1-AWQ"
     else "mistralai/Mixtral-8x7B-v0.1")
    (mkTokenizer
       (if use_quant then "TheBloke/mixtral-8x7b-v0.1-AWQ"
        else "mistralai/Mixtral-8x7B-v0.1") 16 (Some "</s>") (Some "</s>"))
    mixtral.

(** A score tensor with a single expert, fewer than the two the model
    selects per token. *)
Definition narrow : Tensor (@scalar torch) := mkTensor 1 [[7]; [9]]%Z.

(** A Mixtral model whose second layer is [narrow], and one whose
    forward pass raises. *)
Definition ragged : MixtralForCausalLM :=
  mkMixtral (mkMixtralConfig 2 4 2) (λ _ _, Ok (mkOutput [logits; narrow])).

Definition broken : MixtralForCausalLM :=
  mkMixtral (mkMixtralConfig 2 4 2)
    (λ _ _, Raise (RuntimeError "CUDA out of memory")).

Definition runner_of (model : MixtralForCausalLM) : MixtralRunner :=
  mkMixtralRunner "TheBloke/mixtral-8x7b-v0.1-AWQ"
    (mkTokenizer "TheBloke/mixtral-8x7b-v0.1-AWQ" 16 (Some "</s>")
       (Some "</s>"))
    model.

(** One token whose four experts all score the same, and a Mixtral
    model with that single layer. *)
Definition level : Tensor (@scalar torch) := mkTensor 4 [[1; 1; 1; 1]]%Z.

Definition flat : MixtralForCausalLM :=
  mkMixtral (mkMixtralConfig 1 4 2) (λ _ _, Ok (mkOutput [level])).

(** Providers without access to the model hub: every load raises. *)
Definition offline : Transformers := {|
  AutoTokenizer_from_pretrained _ _ := Raise (OSError "offline");
  AutoConfig_from_pretrained _ := Raise (OSError "offline");
  OpenMoeForCausalLM_from_pretrained _ _ _ _ := Raise (OSError "offline");
  MixtralForCausalLM_from_pretrained _ _ _ _ := Raise (OSError "offline");
|}.
End Double.

(** ** What a call files in an accumulator *)

(** The dictionary after the appends [d[key].append(x)] for the pairs
    of [new], first to last. *)
Definition extend (new : list (string * IndexTensor))
    (d : LayerSelectedExperts) : LayerSelectedExperts :=
  foldl (λ d p, <[p.1 := entries d p.1 ++ [p.2]]> d) d new.

(** The tensors of [new] that go under [key], in order. *)
Definition filed_under (key : string) (new : list (string * IndexTensor))
  : list IndexTensor :=
  (filter (λ p, p.1 = key) new).*2.

(** [appends a new w w']: from [w] to [w'] the pairs of [new] were
    appended to the dictionary at [a], and nothing else changed. *)
Definition appends (a : addr) (new : list (string * IndexTensor))
    (w w' : World) : Prop :=
  deref w' a = extend new (deref w a) ∧
  (∀ b, b ≠ a → w_heap w' !! b = w_heap w !! b) ∧
  w_next w' = w_next w ∧
  w_grad_enabled w' = w_grad_enabled w ∧
  w_cuda_available w' = w_cuda_available w ∧
  w_trace w' = w_trace w.

Section selection.
Context `{Torch}.

(** The index tensor [MixtralRunner.__call__] derives from the router
    logits of one layer. *)
Definition selected_experts_of (k : nat) (layer_router : Tensor scalar)
  : IndexTensor :=
  mkTensor k (torch_topk_indices (F_softmax layer_router 1 torch_float) k).

(** What the loop of [MixtralRunner.__call__] files, layer by layer,
    counting from [i]. *)
Definition layer_entries (k i : nat) (logits : list (Tensor scalar))
  : list (string * IndexTensor) :=
  imap (λ j t, (layer_key (i + j), selected_experts_of k t)) logits.

(** The indices [i] outranks [j] in a row of weights: the weight at [i]
    is at least the weight at [j], and on equal weights [i] is the
    lower index. *)
Definition outranks (row : list scalar) (i j : nat) : Prop :=
  ∃ x y, row !! i = Some x ∧ row !! j = Some y ∧
    scalar_le y x = true ∧ (scalar_le x y = true → i < j).

(** A top-k of one token that breaks ties by the lowest expert index:
    [k] distinct experts, listed best first, every listed expert
    outranking every expert left out. *)
Definition is_topk (k : nat) (row : list scalar) (sel : list nat) : Prop :=
  length sel = k ∧ NoDup sel ∧
  (∀ p q i j, p < q → sel !! p = Some i → sel !! q = Some j →
     outranks row i j) ∧
  (∀ i j, i ∈ sel → j < length row → j ∉ sel → outranks row i j).
End selection.


(** What the observers of an OpenMoE model file during one forward
    pass. *)
Definition router_entries `{Torch} (model : OpenMoeForCausalLM)
    (inputs : Inputs) : list (string * IndexTensor) :=
  (λ r, (r, om_selected model r inputs)) <$> om_routers model.

(** Observers attached as [OpenMoERunner.__init__] leaves them: the
    routers have distinct layer identifiers and each has exactly one
    observer, which files into the runner's own accumulator. *)
Definition observers_attached `{Torch} (self : OpenMoERunner) : Prop :=
  NoDup (om_routers (om_model self)) ∧
  om_hooks (om_model self) =
    (λ r, (r, om_activated_experts self)) <$> om_routers (om_model self).

(** A runner as the factory leaves it: for the OpenMoE variant the
    observers are attached; the Mixtral constructor attaches nothing. *)
Definition fully_initialized `{Torch} (self : MoERunner) : Prop :=
  match self with
  | AnOpenMoERunner r => observers_attached r
  | AMixtralRunner _ => True
  end.

(** The router logits a forward pass hands back; none when it raised. *)
Definition result_logits `{Torch} (fwd : result MoeCausalLMOutputWithPast)
  : list (Tensor scalar) :=
  match fwd with
  | Ok outputs => router_logits outputs
  | Raise _ => []
  end.

(** The inputs are valid for the runner: its model can be called with
    them and runs on them without raising and, for the Mixtral variant,
    every score tensor has at least [num_experts_per_tok] experts.  The
    Mixtral model cannot be called when the extra keyword arguments name
    [output_router_logits], which the runner passes itself. *)
Definition accepts `{Torch} (self : MoERunner) (inputs : Inputs) : Prop :=
  match self with
  | AnOpenMoERunner r => om_rejects (om_model r) inputs = None
  | AMixtralRunner r =>
      ("output_router_logits" ∉ (in_kwargs inputs).*1) ∧
      ∃ outputs, mx_forward (mx_model r) inputs true = Ok outputs ∧
        Forall (λ t, num_experts_per_tok (mx_config (mx_model r)) ≤ t_cols t)
          (router_logits outputs)
  end.

(** The identifiers of the layers whose routing a call captures. *)
Definition layer_names `{Torch} (self : MoERunner) (inputs : Inputs)
  : list string :=
  match self with
  | AnOpenMoERunner r => om_routers (om_model r)
  | AMixtralRunner r =>
      layer_key <$>
        seq 0 (length (result_logits (mx_forward (mx_model r) inputs true)))
  end.

(** What a call captures, in the order it is appended. *)
Definition captured `{Torch} (self : MoERunner) (inputs : Inputs)
  : list (string * IndexTensor) :=
  match self with
  | AnOpenMoERunner r => router_entries (om_model r) inputs
  | AMixtralRunner r =>
      layer_entries (num_experts_per_tok (mx_config (mx_model r))) 0
        (result_logits (mx_forward (mx_model r) inputs true))
  end.

(** Device placement of [__call__]. *)
Definition placed (w : World) (t : LongTensor) : LongTensor :=
  if w_cuda_available w then cuda t else t.

(** What the model is called with when both tensors are given. *)
Definition placed_inputs (w : World) (input_ids attention_mask : LongTensor)
    (kwargs : list (string * Z)) : Inputs :=
  mkInputs (Some (placed w input_ids)) (Some (placed w attention_mask)) kwargs.

(** What the model is called with in general, a tensor left at [None]
    staying [None]. *)
Definition passed_inputs (w : World)
    (input_ids attention_mask : option LongTensor)
    (kwargs : list (string * Z)) : Inputs :=
  mkInputs (placed w <$> input_ids) (placed w <$> attention_mask) kwargs.

(** The placement does not fail: a tensor left at [None] cannot be
    moved to CUDA. *)
Definition can_place (w : World) (input_ids attention_mask : option LongTensor)
  : bool :=
  negb (w_cuda_available w)
  || (bool_decide (is_Some input_ids) && bool_decide (is_Some attention_mask)).

(** A call gets as far as its model: the placement does not fail and,
    for the Mixtral variant, the keyword the runner passes itself is not
    passed twice. *)
Definition reaches_model `{Torch} (self : MoERunner) (w : World)
    (input_ids attention_mask : option LongTensor)
    (kwargs : list (string * Z)) : bool :=
  can_place w input_ids attention_mask
  && match self with
     | AnOpenMoERunner _ => true
     | AMixtralRunner _ =>
         bool_decide ("output_router_logits" ∉ kwargs.*1)
     end.

(** What a call that does not get as far as its model raises. *)
Definition early_error (w : World)
    (input_ids attention_mask : option LongTensor) : Exn :=
  if can_place w input_ids attention_mask
  then TypeError
         "got multiple values for keyword argument 'output_router_logits'"
  else AttributeError "'NoneType' object has no attribute 'cuda'".

(** ** Calls in sequence *)

(** The arguments of one call: [input_ids], [attention_mask] and the
    extra keyword arguments. *)
Abbreviation Batch := (LongTensor * LongTensor * list (string * Z))%type.

(** One call of a Mixtral runner after the other, in the order of
    [batches]; the first call that raises ends the sequence. *)
Fixpoint MixtralRunner_calls `{Torch} (self : MixtralRunner)
    (batches : list Batch) : M unit :=
  match batches with
  | [] => ret ()
  | (input_ids, attention_mask, kwargs) :: batches =>
      MixtralRunner_call self (Some input_ids) (Some attention_mask) kwargs ;;!
      MixtralRunner_calls self batches
  end.

(** The inputs a call hands to the model for a batch, on a machine
    where CUDA is or is not available. *)
Definition batch_inputs (cuda_available : bool) (batch : Batch) : Inputs :=
  let '(input_ids, attention_mask, kwargs) := batch in
  mkInputs (Some (if cuda_available then cuda input_ids else input_ids))
    (Some (if cuda_available then cuda attention_mask else attention_mask))
    kwargs.

(** The router logits the model of [self] returns for a batch. *)
Definition batch_logits `{Torch} (self : MixtralRunner) (cuda_available : bool)
    (batch : Batch) : list (Tensor scalar) :=
  result_logits
    (mx_forward (mx_model self) (batch_inputs cuda_available batch) true).

(** [w'] differs from [w] in the stored dictionaries at most. *)
Definition same_but_heap (w w' : World) : Prop :=
  w_next w' = w_next w ∧
  w_grad_enabled w' = w_grad_enabled w ∧
  w_cuda_available w' = w_cuda_available w ∧
  w_trace w' = w_trace w.

(** * Properties *)

(** ** Layer keys *)

Lemma list_ascii_of_string_app (s t : string) :
  String.list_ascii_of_string (s +:+ t)
  = String.list_ascii_of_string s ++ String.list_ascii_of_string t.
Proof. induction s as [|a s IH]; simpl; [done|]. by rewrite <- IH. Qed.

Lemma string_app_inj_r (s1 s2 t : string) : s1 +:+ t = s2 +:+ t → s1 = s2.
Proof.
  intros Heq.
  apply (f_equal String.list_ascii_of_string) in Heq.
  rewrite !list_ascii_of_string_app in Heq.
  apply app_inv_tail in Heq.
  rewrite <- (String.string_of_list_ascii_of_string s1),
          <- (String.string_of_list_ascii_of_string s2).
  by f_equal.
Qed.

Lemma layer_key_inj (i j : nat) : layer_key i = layer_key j → i = j.
Proof.
  unfold layer_key. intros Heq.
  apply String.app_inj, string_app_inj_r in Heq.
  by apply (inj pretty) in Heq.
Qed.

(** ** Dictionaries under appends *)

Lemma entries_insert_eq (d : LayerSelectedExperts) key v :
  entries (<[key := v]> d) key = v.
Proof. unfold entries. by rewrite lookup_insert_eq. Qed.

Lemma entries_insert_ne (d : LayerSelectedExperts) key key' v :
  key ≠ key' → entries (<[key := v]> d) key' = entries d key'.
Proof. intros. unfold entries. by rewrite lookup_insert_ne. Qed.

Lemma extend_app new1 new2 d :
  extend (new1 ++ new2) d = extend new2 (extend new1 d).
Proof. unfold extend. by rewrite foldl_app. Qed.

Lemma filed_under_app key new1 new2 :
  filed_under key (new1 ++ new2) = filed_under key new1 ++ filed_under key new2.
Proof. unfold filed_under. by rewrite filter_app, fmap_app. Qed.

Lemma entries_extend new d key :
  entries (extend new d) key = entries d key ++ filed_under key new.
Proof.
  revert d. induction new as [|[k x] new IH]; intros d.
  - unfold filed_under. simpl. by rewrite app_nil_r.
  - change (extend ((k, x) :: new) d)
      with (extend new (<[k := entries d k ++ [x]]> d)).
    rewrite IH. unfold filed_under. rewrite filter_cons. simpl.
    destruct (decide (k = key)) as [->|Hne]; simpl.
    + by rewrite entries_insert_eq, <- app_assoc.
    + by rewrite entries_insert_ne.
Qed.

Lemma dom_extend new (d : LayerSelectedExperts) :
  dom (extend new d) = dom d ∪ list_to_set new.*1.
Proof.
  revert d. induction new as [|[k x] new IH]; intros d.
  - simpl. set_solver.
  - change (extend ((k, x) :: new) d)
      with (extend new (<[k := entries d k ++ [x]]> d)).
    rewrite IH, dom_insert_L. simpl. set_solver.
Qed.

Lemma filed_under_notin key new : key ∉ new.*1 → filed_under key new = [].
Proof.
  intros Hnot. unfold filed_under.
  induction new as [|[k x] new IH]; [done|].
  rewrite filter_cons. simpl in *.
  apply not_elem_of_cons in Hnot as [Hne Hnot].
  destruct (decide (k = key)); [congruence|]. by apply IH.
Qed.

(** With distinct keys, a key of [new] receives exactly its one tensor. *)
Lemma filed_under_NoDup key x new :
  NoDup new.*1 → (key, x) ∈ new → filed_under key new = [x].
Proof.
  induction new as [|[k y] new IH]; intros Hnd Hin.
  - by apply elem_of_nil in Hin.
  - simpl in Hnd. apply NoDup_cons in Hnd as [Hk Hnd].
    unfold filed_under. rewrite filter_cons. simpl.
    apply elem_of_cons in Hin as [Heq|Hin].
    + simplify_eq. destruct (decide (k = k)); [|done]. simpl.
      f_equal. by apply filed_under_notin.
    + destruct (decide (k = key)) as [->|Hne].
      * exfalso. apply Hk. apply list_elem_of_fmap. by exists (key, x).
      * by apply IH.
Qed.

(** ** Worlds under appends *)

Lemma appends_nil a w : appends a [] w w.
Proof. by repeat split. Qed.

Lemma appends_app a new1 new2 w1 w2 w3 :
  appends a new1 w1 w2 → appends a new2 w2 w3 →
  appends a (new1 ++ new2) w1 w3.
Proof.
  intros (Hd1 & Hf1 & ? & ? & ? & ?) (Hd2 & Hf2 & ? & ? & ? & ?).
  repeat split; try congruence.
  - by rewrite extend_app, <- Hd1.
  - intros b Hb. by rewrite Hf2, Hf1.
Qed.

Lemma append_entry_appends a key x w :
  ∃ w', append_entry a key x w = (Ok (), w') ∧ appends a [(key, x)] w w'.
Proof.
  eexists. split; [done|]. repeat split; simpl.
  - unfold deref at 1. simpl. by rewrite lookup_insert_eq.
  - intros b Hb. by rewrite lookup_insert_ne.
Qed.

(** ** The sorting top-k keeps to what torch documents *)

Section sorted_topk_facts.
Context {A : Type} (le : A → A → bool).
Hypothesis le_total : ∀ x y, le x y = true ∨ le y x = true.
Hypothesis le_trans : ∀ x y z, le x y = true → le y z = true → le x z = true.

Local Instance ranks_before_total high : Total (ranks_before le high).
Proof using le_total.
  intros [i x] [j y]. unfold ranks_before, ranks_before_b. simpl.
  destruct (le_total x y) as [Hxy|Hyx].
  - destruct (le y x) eqn:Hyx; rewrite Hxy; simpl.
    + destruct high, (Nat.leb_spec i j), (Nat.leb_spec j i); auto; lia.
    + by right.
  - destruct (le x y) eqn:Hxy; rewrite Hyx; simpl.
    + destruct high, (Nat.leb_spec i j), (Nat.leb_spec j i); auto; lia.
    + by left.
Qed.

Local Instance ranks_before_trans high : Transitive (ranks_before le high).
Proof using le_trans.
  intros [i x] [j y] [l z]. unfold ranks_before, ranks_before_b. simpl.
  rewrite !andb_true_iff, !orb_true_iff, !negb_true_iff.
  intros [Hyx Hij] [Hzy Hjl]. split.
  - by apply le_trans with y.
  - destruct (le x z) eqn:Hxz; [right|by left].
    assert (le x y = true) as Hxy by (by apply le_trans with z).
    assert (le y z = true) as Hyz by (by apply le_trans with x).
    destruct Hij as [?|Hij]; [congruence|].
    destruct Hjl as [?|Hjl]; [congruence|].
    destruct high; rewrite Nat.leb_le in *; lia.
Qed.

Lemma ranked_sorted row : StronglySorted (ranks_before le true) (ranked le row).
Proof using le_total le_trans. apply StronglySorted_merge_sort; apply _. Qed.

Lemma ranked_perm row : ranked le row ≡ₚ imap pair row.
Proof using Type. apply merge_sort_Permutation. Qed.

Lemma elem_of_ranked row i x : (i, x) ∈ ranked le row ↔ row !! i = Some x.
Proof using Type.
  rewrite ranked_perm, list_elem_of_lookup. split.
  - intros [p Hp]. apply list_lookup_imap_Some in Hp as (y & Hy & Heq).
    by simplify_eq.
  - intros Hi. exists i. apply list_lookup_imap_Some. eauto.
Qed.

Lemma imap_pair_fst (row : list A) n :
  (imap (λ j x, (n + j, x)) row).*1 = seq n (length row).
Proof using Type.
  revert n. induction row as [|x row IH]; intros n; [done|].
  simpl. rewrite Nat.add_0_r. f_equal.
  rewrite <- IH. f_equal. apply imap_ext. intros j y _. simpl.
  f_equal. lia.
Qed.

Lemma ranked_fst_perm row : (ranked le row).*1 ≡ₚ seq 0 (length row).
Proof using Type.
  rewrite ranked_perm. by rewrite <- (imap_pair_fst row 0).
Qed.

Lemma length_ranked row : length (ranked le row) = length row.
Proof using Type. by rewrite ranked_perm, length_imap. Qed.

Lemma NoDup_ranked_fst row : NoDup (ranked le row).*1.
Proof using Type. rewrite ranked_fst_perm. apply NoDup_seq. Qed.

Lemma topk_row_perm k row : topk_row le k row ≡ₚ take k (ranked le row).
Proof using Type. apply merge_sort_Permutation. Qed.

Lemma ranks_before_at_least high row i j x y :
  row !! i = Some x → row !! j = Some y →
  ranks_before le high (i, x) (j, y) → at_least le row i j.
Proof using Type.
  intros Hi Hj. unfold ranks_before, ranks_before_b. simpl.
  rewrite andb_true_iff. intros [Hyx _]. by exists x, y.
Qed.

(** The sorting top-k answers a row with [k] of its largest entries,
    largest first. *)
Lemma topk_row_largest k row :
  k ≤ length row → largest le k row (topk_row le k row).*1.
Proof using le_total le_trans.
  intros Hk.
  pose proof (ranked_sorted row) as Hsorted.
  pose proof (NoDup_ranked_fst row) as Hnd.
  rewrite <- (take_drop k (ranked le row)) in Hsorted, Hnd.
  rewrite fmap_app in Hnd. apply NoDup_app in Hnd as (Hnd & _ & _).
  apply StronglySorted_app in Hsorted as (Hcut & _ & _).
  assert (StronglySorted (ranks_before le false) (topk_row le k row))
    as Hlisted by (apply StronglySorted_merge_sort; apply _).
  assert (∀ i x, (i, x) ∈ topk_row le k row → row !! i = Some x) as Hin.
  { intros i x Hi. rewrite topk_row_perm in Hi. apply elem_of_ranked.
    rewrite <- (take_drop k (ranked le row)). apply elem_of_app. by left. }
  split; [|split; [|split; [|split]]].
  - rewrite length_fmap, topk_row_perm, length_take, length_ranked. lia.
  - by rewrite topk_row_perm.
  - apply Forall_forall. intros i Hi.
    apply list_elem_of_fmap in Hi as ([i' x] & -> & Hi). simpl.
    apply Hin in Hi. by apply lookup_lt_Some in Hi.
  - intros p q i j Hpq Hp Hq.
    apply list_lookup_fmap_Some in Hp as ([i' x] & ? & Hp).
    apply list_lookup_fmap_Some in Hq as ([j' y] & ? & Hq). simplify_eq/=.
    apply (ranks_before_at_least false row i' j' x y).
    + apply Hin, list_elem_of_lookup; eauto.
    + apply Hin, list_elem_of_lookup; eauto.
    + rewrite <- (take_drop q (topk_row le k row)) in Hlisted.
      eapply StronglySorted_app_1_elem_of; [exact Hlisted| |].
      * apply list_elem_of_lookup. exists p. by rewrite lookup_take_lt.
      * apply list_elem_of_lookup. exists 0.
        by rewrite lookup_drop, Nat.add_0_r.
  - intros i j Hi Hj Hnot.
    apply list_elem_of_fmap in Hi as ([i' x] & ? & Hi). simplify_eq/=.
    destruct (lookup_lt_is_Some_2 row j Hj) as [y Hy].
    assert ((j, y) ∈ drop k (ranked le row)) as Hdrop.
    { apply elem_of_ranked in Hy.
      rewrite <- (take_drop k (ranked le row)) in Hy.
      apply elem_of_app in Hy as [Hy|Hy]; [|done].
      exfalso. apply Hnot. apply list_elem_of_fmap. exists (j, y).
      split; [done|]. by rewrite topk_row_perm. }
    apply (ranks_before_at_least true row i' j x y); [by apply Hin|done|].
    apply Hcut; [|done]. by rewrite topk_row_perm in Hi.
Qed.
End sorted_topk_facts.

(** ** The loop of [MixtralRunner.__call__] *)

Section mixtral_loop.
Context `{Torch}.

Lemma torch_topk_ok (t : Tensor scalar) k :
  k ≤ t_cols t →
  torch_topk t k
  = Ok (mkTensor k
          (zip_with (λ row sel, omap (λ i, row !! i) sel)
             (t_rows t) (torch_topk_indices t k)),
        mkTensor k (torch_topk_indices t k)).
Proof. intros Hk. unfold torch_topk. by rewrite decide_True. Qed.

Lemma torch_topk_raises (t : Tensor scalar) k :
  ¬ k ≤ t_cols t →
  torch_topk t k = Raise (RuntimeError "selected index k out of range").
Proof. intros Hk. unfold torch_topk. by rewrite decide_False. Qed.

Lemma layer_entries_cons k i t logits :
  layer_entries k i (t :: logits)
  = (layer_key i, selected_experts_of k t) :: layer_entries k (S i) logits.
Proof.
  unfold layer_entries. simpl. rewrite Nat.add_0_r. f_equal.
  apply imap_ext. intros j y _. simpl. do 2 f_equal. lia.
Qed.

Lemma layer_entries_keys k i logits :
  (layer_entries k i logits).*1 = layer_key <$> seq i (length logits).
Proof.
  revert i. induction logits as [|t logits IH]; intros i; [done|].
  rewrite layer_entries_cons. simpl. by rewrite IH.
Qed.

Lemma NoDup_layer_entries k i logits : NoDup (layer_entries k i logits).*1.
Proof.
  rewrite layer_entries_keys. apply NoDup_fmap_2; [|apply NoDup_seq].
  intros ??. apply layer_key_inj.
Qed.

Lemma elem_of_layer_entries k i logits j t :
  logits !! j = Some t →
  (layer_key (i + j), selected_experts_of k t) ∈ layer_entries k i logits.
Proof.
  intros Hj. unfold layer_entries.
  by apply (elem_of_lookup_imap_2
    (λ j t, (layer_key (i + j), selected_experts_of k t)) logits t j).
Qed.

(** When every layer has at least [k] experts the loop runs to its
    end and files one tensor per layer. *)
Lemma record_layers_ok (self : MixtralRunner) i logits w :
  let k := num_experts_per_tok (mx_config (mx_model self)) in
  Forall (λ t, k ≤ t_cols (F_softmax t 1 torch_float)) logits →
  ∃ w', record_layers self i logits w = (Ok (), w') ∧
        appends MoERunner_activated_experts (layer_entries k i logits) w w'.
Proof.
  intros k. revert i w.
  induction logits as [|t logits IH]; intros i w Hfit.
  - exists w. split; [done|]. apply appends_nil.
  - apply Forall_cons in Hfit as [Ht Hfit].
    destruct (append_entry_appends MoERunner_activated_experts (layer_key i)
                (selected_experts_of k t) w) as (w1 & Hrun1 & Happ1).
    destruct (IH (S i) w1 Hfit) as (w2 & Hrun2 & Happ2).
    exists w2. split.
    + simpl. unfold bind at 1. fold k. rewrite (torch_topk_ok _ k Ht).
      unfold bind at 1. simpl activated_experts.
      unfold selected_experts_of in Hrun1. rewrite Hrun1. exact Hrun2.
    + rewrite layer_entries_cons.
      by apply (appends_app _ [_] _ w w1 w2).
Qed.

(** However the loop ends, what it has filed is what it files for the
    layers before some index [n]: layers are handled in order.  The
    outcome and [n] depend on [k] and the logits alone. *)
Lemma record_layers_prefix k i logits :
  ∃ n r,
    Forall (λ t, k ≤ t_cols (F_softmax t 1 torch_float)) (take n logits) ∧
    ∀ (self : MixtralRunner) w,
      num_experts_per_tok (mx_config (mx_model self)) = k →
      ∃ w', record_layers self i logits w = (r, w') ∧
        appends MoERunner_activated_experts
          (layer_entries k i (take n logits)) w w'.
Proof.
  revert i. induction logits as [|t logits IH]; intros i.
  - exists 0, (Ok ()). split; [done|]. intros self w _.
    exists w. split; [done|]. apply appends_nil.
  - destruct (decide (k ≤ t_cols (F_softmax t 1 torch_float))) as [Ht|Ht].
    + destruct (IH (S i)) as (n & r & Hfit & Hrun).
      exists (S n), r. split; [by apply Forall_cons|].
      intros self w Hk.
      destruct (append_entry_appends MoERunner_activated_experts
                  (layer_key i) (selected_experts_of k t) w)
        as (w1 & Hrun1 & Happ1).
      destruct (Hrun self w1 Hk) as (w2 & Hrun2 & Happ2).
      exists w2. split.
      * simpl. unfold bind at 1. rewrite Hk, (torch_topk_ok _ k Ht).
        unfold bind at 1. simpl activated_experts.
        unfold selected_experts_of in Hrun1. rewrite Hrun1. exact Hrun2.
      * simpl take. rewrite layer_entries_cons.
        by apply (appends_app _ [_] _ w w1 w2).
    + exists 0, (Raise (RuntimeError "selected index k out of range")).
      split; [done|]. intros self w Hk. exists w.
      split; [|apply appends_nil].
      simpl. unfold bind at 1. by rewrite Hk, (torch_topk_raises _ k Ht).
Qed.
End mixtral_loop.

(** ** One call of a Mixtral runner *)

Section mixtral_call.
Context `{Torch}.

Lemma place_inputs_present ids mask w :
  place_inputs (Some ids) (Some mask) w
  = (Ok (Some (placed w ids), Some (placed w mask)), w).
Proof.
  unfold place_inputs, bind, torch_cuda_is_available, placed.
  by destruct (w_cuda_available w).
Qed.

Lemma merge_keyword_fresh name kwargs w :
  name ∉ kwargs.*1 → merge_keyword name kwargs w = (Ok (), w).
Proof. intros Hfresh. unfold merge_keyword. by rewrite decide_False. Qed.

(** With both tensors given and [output_router_logits] not among the
    extra keywords, the call is the forward pass on the placed inputs
    followed by the loop. *)
Lemma MixtralRunner_call_present (self : MixtralRunner) ids mask kwargs w :
  "output_router_logits" ∉ kwargs.*1 →
  MixtralRunner_call self (Some ids) (Some mask) kwargs w
  = (outputs ←! Mixtral_forward (mx_model_name self) (mx_model self)
                  (placed_inputs w ids mask kwargs) true ;;
     record_layers self 0 (router_logits outputs) ;;!
     ret (activated_experts (AMixtralRunner self))) w.
Proof.
  intros Hfresh. unfold MixtralRunner_call. unfold bind at 1.
  rewrite place_inputs_present. unfold bind at 1.
  by rewrite merge_keyword_fresh.
Qed.

Lemma reaches_model_present (self : MoERunner) w ids mask kwargs :
  reaches_model self w (Some ids) (Some mask) kwargs
  = match self with
    | AnOpenMoERunner _ => true
    | AMixtralRunner _ => bool_decide ("output_router_logits" ∉ kwargs.*1)
    end.
Proof.
  unfold reaches_model, can_place.
  rewrite !bool_decide_eq_true_2 by eauto. by rewrite orb_true_r.
Qed.

Lemma place_inputs_ok ids mask w :
  can_place w ids mask = true →
  place_inputs ids mask w = (Ok (placed w <$> ids, placed w <$> mask), w).
Proof.
  unfold can_place, place_inputs, torch_cuda_is_available, placed.
  unfold bind at 1. destruct (w_cuda_available w); simpl.
  - intros [[i ->]%bool_decide_eq_true [m ->]%bool_decide_eq_true]%andb_true_iff.
    reflexivity.
  - intros _. by rewrite !option_fmap_id.
Qed.

Lemma place_inputs_fails ids mask w :
  can_place w ids mask = false →
  place_inputs ids mask w
  = (Raise (AttributeError "'NoneType' object has no attribute 'cuda'"), w).
Proof.
  unfold can_place, place_inputs, torch_cuda_is_available.
  unfold bind at 1. destruct (w_cuda_available w); simpl; [|done].
  destruct ids as [ids|]; [|done]. by destruct mask as [mask|].
Qed.

(** A call that cannot reach the model raises and leaves the world as
    it is. *)
Lemma MixtralRunner_call_unreached (self : MixtralRunner) ids mask kwargs w :
  reaches_model (AMixtralRunner self) w ids mask kwargs = false →
  MixtralRunner_call self ids mask kwargs w
  = (Raise (early_error w ids mask), w).
Proof.
  unfold reaches_model, early_error, MixtralRunner_call.
  unfold bind at 1.
  destruct (can_place w ids mask) eqn:Hplace.
  - rewrite place_inputs_ok by done. simpl. intros Hdup.
    apply bool_decide_eq_false in Hdup.
    unfold bind at 1, merge_keyword.
    by rewrite decide_True by (by apply dec_stable).
  - intros _. by rewrite place_inputs_fails.
Qed.

(** A call that reaches the model is the forward pass on what was
    passed, followed by the loop. *)
Lemma MixtralRunner_call_reached (self : MixtralRunner) ids mask kwargs w :
  reaches_model (AMixtralRunner self) w ids mask kwargs = true →
  MixtralRunner_call self ids mask kwargs w
  = (outputs ←! Mixtral_forward (mx_model_name self) (mx_model self)
                  (passed_inputs w ids mask kwargs) true ;;
     record_layers self 0 (router_logits outputs) ;;!
     ret (activated_experts (AMixtralRunner self))) w.
Proof.
  unfold reaches_model, MixtralRunner_call.
  rewrite andb_true_iff, bool_decide_eq_true. intros [Hplace Hfresh].
  unfold bind at 1. rewrite place_inputs_ok by done.
  unfold bind at 1. by rewrite merge_keyword_fresh.
Qed.

Lemma MixtralRunner_call_ok (self : MixtralRunner) ids mask kwargs w outputs :
  let k := num_experts_per_tok (mx_config (mx_model self)) in
  let inputs := placed_inputs w ids mask kwargs in
  "output_router_logits" ∉ kwargs.*1 →
  mx_forward (mx_model self) inputs true = Ok outputs →
  Forall (λ t, k ≤ t_cols (F_softmax t 1 torch_float))
    (router_logits outputs) →
  ∃ w', MixtralRunner_call self (Some ids) (Some mask) kwargs w
        = (Ok MoERunner_activated_experts, w') ∧
    appends MoERunner_activated_experts
      (layer_entries k 0 (router_logits outputs))
      (logged (Forward (mx_model_name self) inputs true (w_grad_enabled w)) w)
      w'.
Proof.
  intros k inputs Hfresh Hfwd Hfit.
  destruct (record_layers_ok self 0 (router_logits outputs)
    (logged (Forward (mx_model_name self) inputs true (w_grad_enabled w)) w)
    Hfit) as (w' & Hrun & Happ).
  exists w'. split; [|done].
  rewrite MixtralRunner_call_present by done.
  unfold bind, Mixtral_forward, call, bind, torch_is_grad_enabled, emit.
  fold inputs. rewrite Hfwd, Hrun. done.
Qed.

(** Whatever the outcome of a call that reaches the model, the
    class-level dictionary has received the entries of the first [n]
    layers of the output, and nothing else in the world changed but the
    trace.  The outcome and [n] depend only on [k] and on what the
    forward pass returned. *)
Lemma MixtralRunner_call_run k (fwd : result MoeCausalLMOutputWithPast) :
  ∃ n r,
    Forall (λ t, k ≤ t_cols (F_softmax t 1 torch_float))
      (take n (result_logits fwd)) ∧
    ∀ (self : MixtralRunner) ids mask kwargs w,
      let inputs := passed_inputs w ids mask kwargs in
      reaches_model (AMixtralRunner self) w ids mask kwargs = true →
      num_experts_per_tok (mx_config (mx_model self)) = k →
      mx_forward (mx_model self) inputs true = fwd →
      ∃ w', MixtralRunner_call self ids mask kwargs w = (r, w') ∧
        appends MoERunner_activated_experts
          (layer_entries k 0 (take n (result_logits fwd)))
          (logged (Forward (mx_model_name self) inputs true
                     (w_grad_enabled w)) w) w'.
Proof.
  destruct fwd as [outputs|e].
  - destruct (record_layers_prefix k 0 (router_logits outputs))
      as (n & r & Hfit & Hrun).
    exists n, (match r with
               | Ok _ => Ok MoERunner_activated_experts
               | Raise e => Raise e
               end).
    split; [done|]. intros self ids mask kwargs w inputs Hreach Hk Hfwd.
    destruct (Hrun self (logged (Forward (mx_model_name self) inputs true
                (w_grad_enabled w)) w) Hk) as (w' & Hrun' & Happ).
    exists w'. split; [|done].
    rewrite MixtralRunner_call_reached by done.
    unfold bind, Mixtral_forward, call, bind, torch_is_grad_enabled, emit.
    fold inputs. rewrite Hfwd, Hrun'. by destruct r.
  - exists 0, (Raise e). split; [done|].
    intros self ids mask kwargs w inputs Hreach Hk Hfwd.
    eexists. split; [|apply appends_nil].
    rewrite MixtralRunner_call_reached by done.
    unfold bind, Mixtral_forward, call, bind, torch_is_grad_enabled, emit.
    fold inputs. by rewrite Hfwd.
Qed.

(** Whatever the outcome of any call, the class-level dictionary has
    only received entries. *)
Lemma MixtralRunner_call_any (self : MixtralRunner) ids mask kwargs w :
  let k := num_experts_per_tok (mx_config (mx_model self)) in
  let logits :=
    if reaches_model (AMixtralRunner self) w ids mask kwargs
    then result_logits (mx_forward (mx_model self)
                          (passed_inputs w ids mask kwargs) true)
    else [] in
  ∃ n r w',
    MixtralRunner_call self ids mask kwargs w = (r, w') ∧
    Forall (λ t, k ≤ t_cols (F_softmax t 1 torch_float)) (take n logits) ∧
    deref w' MoERunner_activated_experts
    = extend (layer_entries k 0 (take n logits))
        (deref w MoERunner_activated_experts) ∧
    (∀ b, b ≠ MoERunner_activated_experts → w_heap w' !! b = w_heap w !! b) ∧
    w_next w' = w_next w ∧
    w_grad_enabled w' = w_grad_enabled w ∧
    w_cuda_available w' = w_cuda_available w.
Proof.
  intros k logits. subst logits.
  destruct (reaches_model (AMixtralRunner self) w ids mask kwargs) eqn:Hreach.
  - destruct (MixtralRunner_call_run k
                (mx_forward (mx_model self)
                   (passed_inputs w ids mask kwargs) true))
      as (n & r & Hfit & Hany).
    destruct (Hany self ids mask kwargs w Hreach eq_refl eq_refl)
      as (w' & Hrun & Hd & Hframe & Hnext & Hgrad & Hcuda & _).
    by exists n, r, w'.
  - pose proof (MixtralRunner_call_unreached self ids mask kwargs w Hreach)
      as Hrun.
    exists 0, (Raise (early_error w ids mask)), w. by repeat split.
Qed.
End mixtral_call.

(** ** One call of an OpenMoE runner *)

Section openmoe_call.
Context `{Torch}.

Lemma run_hooks_skip acc (rs : list string) router d w :
  router ∉ rs → run_hooks ((λ r, (r, acc)) <$> rs) router d w = (Ok (), w).
Proof.
  induction rs as [|r rs IH]; intros Hnot; [done|].
  apply not_elem_of_cons in Hnot as [Hne Hnot].
  simpl. unfold bind at 1. rewrite decide_False by done. simpl.
  by apply IH.
Qed.

Lemma run_hooks_once acc (rs : list string) router d w :
  NoDup rs → router ∈ rs →
  ∃ w', run_hooks ((λ r, (r, acc)) <$> rs) router d w = (Ok (), w') ∧
        appends acc [(router, d)] w w'.
Proof.
  induction rs as [|r rs IH]; intros Hnd Hin.
  - by apply elem_of_nil in Hin.
  - apply NoDup_cons in Hnd as [Hr Hnd].
    simpl. unfold bind at 1.
    destruct (decide (r = router)) as [->|Hne].
    + destruct (append_entry_appends acc router d w) as (w' & Hrun & Happ).
      exists w'. rewrite Hrun. split; [|done]. by apply run_hooks_skip.
    + apply elem_of_cons in Hin as [?|Hin]; [congruence|].
      simpl. by apply IH.
Qed.

Lemma run_routers_attached (model : OpenMoeForCausalLM) acc rs inputs w :
  NoDup (om_routers model) →
  om_hooks model = (λ r, (r, acc)) <$> om_routers model →
  rs ⊆ om_routers model →
  ∃ w', run_routers model rs inputs w = (Ok (), w') ∧
        appends acc ((λ r, (r, om_selected model r inputs)) <$> rs) w w'.
Proof.
  intros Hnd Hhooks. revert w.
  induction rs as [|r rs IH]; intros w Hsub.
  - exists w. split; [done|]. apply appends_nil.
  - assert (r ∈ om_routers model) as Hr by set_solver.
    assert (rs ⊆ om_routers model) as Hrs by set_solver.
    destruct (run_hooks_once acc (om_routers model) r
                (om_selected model r inputs) w Hnd Hr) as (w1 & Hrun1 & Happ1).
    destruct (IH w1 Hrs) as (w2 & Hrun2 & Happ2).
    exists w2. split.
    + simpl. unfold bind. by rewrite Hhooks, Hrun1.
    + by apply (appends_app _ [_] _ w w1 w2).
Qed.

Lemma appends_no_grad a new e (w w' : World) :
  appends a new (logged e (set_grad_enabled false w)) w' →
  appends a new (logged e w) (set_grad_enabled (w_grad_enabled w) w').
Proof. intros (? & ? & ? & ? & ? & ?). by repeat split. Qed.

(** With both tensors given, the call is the forward pass on the
    placed inputs, made with gradient tracking off, the caller's mode
    being put back afterwards. *)
Lemma OpenMoERunner_call_present (self : OpenMoERunner) ids mask kwargs w :
  OpenMoERunner_call self (Some ids) (Some mask) kwargs w
  = (let '(r, w') :=
       (OpenMoe_forward (om_model_name self) (om_model self)
          (placed_inputs w ids mask kwargs) ;;!
        ret (om_activated_experts self)) (set_grad_enabled false w) in
     (r, set_grad_enabled (w_grad_enabled w) w')).
Proof.
  unfold OpenMoERunner_call, torch_no_grad. unfold bind at 1.
  rewrite place_inputs_present. reflexivity.
Qed.

Lemma OpenMoERunner_call_ok (self : OpenMoERunner) ids mask kwargs w :
  let inputs := placed_inputs w ids mask kwargs in
  observers_attached self →
  om_rejects (om_model self) inputs = None →
  ∃ w', OpenMoERunner_call self (Some ids) (Some mask) kwargs w
        = (Ok (om_activated_experts self), w') ∧
    appends (om_activated_experts self)
      (router_entries (om_model self) inputs)
      (logged (Forward (om_model_name self) inputs false false) w) w'.
Proof.
  intros inputs [Hnd Hhooks] Hacc.
  destruct (run_routers_attached (om_model self) (om_activated_experts self)
    (om_routers (om_model self)) inputs
    (logged (Forward (om_model_name self) inputs false false)
       (set_grad_enabled false w)) Hnd Hhooks) as (w' & Hrun & Happ);
    [done|].
  exists (set_grad_enabled (w_grad_enabled w) w'). split.
  - rewrite OpenMoERunner_call_present.
    unfold OpenMoe_forward, bind, torch_is_grad_enabled, emit.
    simpl w_grad_enabled. fold inputs.
    rewrite Hacc. unfold logged at 1 in Hrun. simpl in Hrun.
    unfold logged at 1. simpl. by rewrite Hrun.
  - by apply appends_no_grad.
Qed.

Lemma OpenMoERunner_call_rejected (self : OpenMoERunner) ids mask kwargs w e :
  let inputs := placed_inputs w ids mask kwargs in
  om_rejects (om_model self) inputs = Some e →
  OpenMoERunner_call self (Some ids) (Some mask) kwargs w
  = (Raise e, logged (Forward (om_model_name self) inputs false false) w).
Proof.
  intros inputs Hrej.
  rewrite OpenMoERunner_call_present.
  unfold OpenMoe_forward, bind, torch_is_grad_enabled, emit.
  simpl w_grad_enabled. fold inputs.
  rewrite Hrej. unfold raise, logged, set_grad_enabled. simpl.
  by destruct w.
Qed.
End openmoe_call.

(** ** The synthetic provider obeys the laws *)

#[global] Instance double_laws : @TorchLaws Double.torch.
Proof.
  split; simpl; try done.
  - intros x y. rewrite !Z.leb_le. lia.
  - intros x y z. rewrite !Z.leb_le. lia.
  - intros t k _. by rewrite length_fmap.
  - intros t k token row Hwf Hk Hrow.
    exists (topk_row Z.leb k row).*1. split.
    + by rewrite list_lookup_fmap, Hrow.
    + apply topk_row_largest.
      * intros x y. rewrite !Z.leb_le. lia.
      * intros x y z. rewrite !Z.leb_le. lia.
      * unfold tensor_wf in Hwf. rewrite Forall_lookup in Hwf.
        by rewrite (Hwf _ _ Hrow).
Qed.

Lemma double_logits_wf : tensor_wf Double.logits.
Proof. unfold tensor_wf. simpl. by repeat constructor. Qed.

(** ** Routing re-derived from the router logits *)

Section derived.
Context `{TorchLaws}.

(** C1, as amended.  One call of a Mixtral runner handles the router
    logits it gets back in layer order: layer [i] is passed through
    [F.softmax(.., dim=1, dtype=torch.float)], whatever dtype the model
    works in, then through [torch.topk] with [k] the model's
    [num_experts_per_tok]; the index tensor is appended to the entry
    ["layer_{i}.router"] of the record; and for every token that tensor
    lists [k] distinct experts of largest weight, larger weights first.
    Which of several experts of equal weight is listed is left to
    [torch.topk]. *)
Theorem mixtral_call_records_topk_of_softmax
    (self : MixtralRunner) ids mask kwargs w outputs :
  let k := num_experts_per_tok (mx_config (mx_model self)) in
  let inputs := placed_inputs w ids mask kwargs in
  "output_router_logits" ∉ kwargs.*1 →
  mx_forward (mx_model self) inputs true = Ok outputs →
  Forall (λ t, tensor_wf t ∧ k ≤ t_cols t) (router_logits outputs) →
  ∃ w', MixtralRunner_call self (Some ids) (Some mask) kwargs w
        = (Ok MoERunner_activated_experts, w') ∧
    ∀ i layer_router, router_logits outputs !! i = Some layer_router →
      let routing_weights := F_softmax layer_router 1 torch_float in
      ∃ values selected_experts,
        torch_topk routing_weights k = Ok (values, selected_experts) ∧
        entries (deref w' MoERunner_activated_experts) (layer_key i)
        = entries (deref w MoERunner_activated_experts) (layer_key i)
          ++ [selected_experts] ∧
        t_cols selected_experts = k ∧
        length (t_rows selected_experts) = length (t_rows layer_router) ∧
        ∀ token row, t_rows routing_weights !! token = Some row →
          ∃ sel, t_rows selected_experts !! token = Some sel ∧
                 largest scalar_le k row sel.
Proof.
  intros k inputs Hfresh Hfwd Hshape.
  assert (Forall (λ t, k ≤ t_cols (F_softmax t 1 torch_float))
            (router_logits outputs)) as Hfit.
  { eapply Forall_impl; [exact Hshape|]. intros t [_ Ht]. simpl.
    by rewrite F_softmax_cols. }
  destruct (MixtralRunner_call_ok self ids mask kwargs w outputs Hfresh Hfwd
              Hfit) as (w' & Hrun & Hdict & _).
  exists w'. split; [done|].
  intros i layer_router Hi routing_weights.
  rewrite Forall_lookup in Hshape. destruct (Hshape _ _ Hi) as [Hwf Hk].
  rewrite Forall_lookup in Hfit. specialize (Hfit _ _ Hi). simpl in Hfit.
  eexists _, _. split; [by apply torch_topk_ok|]. split; [|split; [|split]].
  - rewrite Hdict, entries_extend. f_equal.
    apply filed_under_NoDup; [apply NoDup_layer_entries|].
    by apply (elem_of_layer_entries k 0 (router_logits outputs) i layer_router).
  - done.
  - simpl. unfold routing_weights.
    by rewrite torch_topk_rows, F_softmax_rows.
  - intros token row Hrow. simpl.
    apply torch_topk_largest; [|done..].
    by apply F_softmax_wf.
Qed.
End derived.

Lemma mixtral_call_records_topk_of_softmax_witness :
  ∃ w', MixtralRunner_call (Double.runner true) (Some Double.ids)
          (Some Double.mask) [] (world_at_import false)
        = (Ok MoERunner_activated_experts, w') ∧
    ∀ i (layer_router : Tensor (@scalar Double.torch)),
      router_logits Double.outputs !! i = Some layer_router →
      ∃ values selected_experts,
        torch_topk (F_softmax layer_router 1 torch_float) 2
        = Ok (values, selected_experts) ∧
        entries (deref w' MoERunner_activated_experts) (layer_key i)
        = entries (deref (world_at_import false) MoERunner_activated_experts)
            (layer_key i) ++ [selected_experts] ∧
        t_cols selected_experts = 2 ∧
        length (t_rows selected_experts) = length (t_rows layer_router) ∧
        ∀ token (row : list (@scalar Double.torch)),
          t_rows (F_softmax layer_router 1 torch_float) !! token = Some row →
          ∃ sel, t_rows selected_experts !! token = Some sel ∧
                 largest scalar_le 2 row sel.
Proof.
  apply (mixtral_call_records_topk_of_softmax (Double.runner true)
           Double.ids Double.mask [] (world_at_import false) Double.outputs).
  - apply not_elem_of_nil.
  - reflexivity.
  - repeat constructor; try apply double_logits_wf; simpl; lia.
Defined.

(** C1, as stated, fails on the tie rule.  With four experts of equal
    weight and a top-k that keeps to what torch documents, the call
    records the experts 2 and 3 for the token: two of the largest
    weights, yet not the ones a tie-break by lowest expert index
    selects. *)
Lemma topk_ties_need_not_go_to_lowest_index :
  let call :=
    MixtralRunner_call (Double.runner_of Double.flat) (Some Double.ids)
      (Some Double.mask) [] (world_at_import false) in
  let row : list (@scalar Double.torch) := [1; 1; 1; 1]%Z in
  mx_forward Double.flat
    (placed_inputs (world_at_import false) Double.ids Double.mask []) true
  = Ok (mkOutput [mkTensor 4 [row]]) ∧
  call.1 = Ok MoERunner_activated_experts ∧
  entries (deref call.2 MoERunner_activated_experts) "layer_0.router"
  = [mkTensor 2 [[2; 3]]] ∧
  largest scalar_le 2 row [2; 3] ∧
  ¬ is_topk 2 row [2; 3].
Proof.
  intros call row. split; [reflexivity|]. split; [reflexivity|].
  split; [vm_compute; reflexivity|]. split.
  - change [2; 3] with (topk_row Z.leb 2 row).*1.
    apply topk_row_largest.
    + intros x y. rewrite !Z.leb_le. lia.
    + intros x y z. rewrite !Z.leb_le. lia.
    + simpl. lia.
  - intros (_ & _ & _ & Hout).
    destruct (Hout 3 0) as (x & y & Hx & Hy & _ & Htie).
    + apply elem_of_cons. right. apply elem_of_cons. by left.
    + simpl. lia.
    + rewrite !elem_of_cons, elem_of_nil. intros [?|[?|[]]]; lia.
    + simpl in Hx, Hy. simplify_eq. specialize (Htie eq_refl). lia.
Qed.

(** The scenario of the synthetic model: the two tokens select experts
    [0, 1] and [2, 3], the two highest scores of each. *)
Example mixtral_call_scenario :
  let '(r, w') := MixtralRunner_call (Double.runner true) (Some Double.ids)
                    (Some Double.mask) [] (world_at_import false) in
  r = Ok MoERunner_activated_experts ∧
  deref w' MoERunner_activated_experts
  = {[ layer_key 0 := [mkTensor 2 [[0; 1]; [2; 3]]];
       layer_key 1 := [mkTensor 2 [[0; 1]; [2; 3]]] ]}.
Proof. vm_compute. split; reflexivity. Qed.

(** ** One call of either runner *)

Section any_runner.
Context `{TorchLaws}.

Lemma captured_keys (self : MoERunner) inputs :
  (captured self inputs).*1 = layer_names self inputs.
Proof.
  destruct self as [r|r]; simpl.
  - unfold router_entries. rewrite <- list_fmap_compose.
    by rewrite <- (list_fmap_id (om_routers (om_model r))) at 2.
  - apply layer_entries_keys.
Qed.

Lemma NoDup_layer_names (self : MoERunner) inputs :
  fully_initialized self → NoDup (layer_names self inputs).
Proof.
  destruct self as [r|r]; simpl.
  - by intros [Hnd _].
  - intros _. apply NoDup_fmap_2; [|apply NoDup_seq].
    intros ??. apply layer_key_inj.
Qed.

(** A call on valid inputs returns the runner's record and has
    appended what the call captured, one tensor per layer. *)
Lemma MoERunner_call_accepted (self : MoERunner) ids mask kwargs w :
  let inputs := placed_inputs w ids mask kwargs in
  fully_initialized self → accepts self inputs →
  ∃ e w', MoERunner_call self (Some ids) (Some mask) kwargs w
          = (Ok (activated_experts self), w') ∧
    appends (activated_experts self) (captured self inputs) (logged e w) w'.
Proof.
  intros inputs Hinit Hacc. destruct self as [r|r]; simpl in *.
  - destruct (OpenMoERunner_call_ok r ids mask kwargs w Hinit Hacc)
      as (w' & Hrun & Happ). eauto.
  - destruct Hacc as (Hfresh & outputs & Hfwd & Hshape).
    assert (Forall (λ t, num_experts_per_tok (mx_config (mx_model r))
                         ≤ t_cols (F_softmax t 1 torch_float))
              (router_logits outputs)) as Hfit.
    { eapply Forall_impl; [exact Hshape|]. intros t Ht. simpl.
      by rewrite F_softmax_cols. }
    destruct (MixtralRunner_call_ok r ids mask kwargs w outputs Hfresh Hfwd
                Hfit) as (w' & Hrun & Happ).
    fold inputs in Hfwd. rewrite Hfwd. simpl. eauto.
Qed.

Lemma appends_entries a new e w w' key :
  appends a new (logged e w) w' →
  entries (deref w' a) key = entries (deref w a) key ++ filed_under key new.
Proof. intros [Hd _]. by rewrite Hd, entries_extend. Qed.

Lemma appends_dom a new e w w' :
  appends a new (logged e w) w' →
  dom (deref w' a) = dom (deref w a) ∪ list_to_set new.*1.
Proof. intros [Hd _]. by rewrite Hd, dom_extend. Qed.

Lemma filed_under_captured (self : MoERunner) inputs key :
  fully_initialized self →
  if decide (key ∈ layer_names self inputs)
  then ∃ x, filed_under key (captured self inputs) = [x]
  else filed_under key (captured self inputs) = [].
Proof.
  intros Hinit. pose proof (NoDup_layer_names self inputs Hinit) as Hnd.
  rewrite <- captured_keys in *.
  destruct (decide _) as [Hin|Hnot].
  - apply list_elem_of_fmap in Hin as ([key' x] & -> & Hin).
    exists x. by apply filed_under_NoDup.
  - by apply filed_under_notin.
Qed.

(** C2.  On valid inputs, one call of a fully initialized runner of
    either variant returns normally and makes the sequence of every
    layer it captures exactly one entry longer; no other sequence of
    the record changes length. *)
Theorem infer_appends_one_entry_per_layer
    (self : MoERunner) ids mask kwargs w :
  let inputs := placed_inputs w ids mask kwargs in
  let a := activated_experts self in
  fully_initialized self → accepts self inputs →
  ∃ w', MoERunner_call self (Some ids) (Some mask) kwargs w = (Ok a, w') ∧
    ∀ key,
      length (entries (deref w' a) key)
      = if decide (key ∈ layer_names self inputs)
        then S (length (entries (deref w a) key))
        else length (entries (deref w a) key).
Proof.
  intros inputs a Hinit Hacc.
  destruct (MoERunner_call_accepted self ids mask kwargs w Hinit Hacc)
    as (e & w' & Hrun & Happ).
  exists w'. split; [done|]. intros key. subst a inputs.
  rewrite (appends_entries _ _ _ _ _ key Happ), length_app.
  pose proof (filed_under_captured self
                (placed_inputs w ids mask kwargs) key Hinit) as Hfiled.
  destruct (decide _).
  - destruct Hfiled as [x ->]. simpl. lia.
  - rewrite Hfiled. simpl. lia.
Qed.




(** C4, as amended.  The keys of a runner's record are not fixed when
    the runner is built: a call adds the identifier of every layer it
    captures that the record does not hold yet.  No call ever removes
    a key, whatever its outcome, and after a call on valid inputs the
    keys are the earlier keys together with the identifiers of the
    captured layers, so a call that captures only layers already
    present leaves the key set as it was. *)
Theorem infer_only_adds_layer_keys
    (self : MoERunner) ids mask kwargs w r w' :
  let inputs := placed_inputs w ids mask kwargs in
  let a := activated_experts self in
  fully_initialized self →
  MoERunner_call self (Some ids) (Some mask) kwargs w = (r, w') →
  dom (deref w a) ⊆ dom (deref w' a) ∧
  (accepts self inputs →
     dom (deref w' a)
     = dom (deref w a) ∪ list_to_set (layer_names self inputs)).
Proof.
  intros inputs a Hinit Hrun. subst a inputs. split.
  - destruct self as [s|s]; simpl in *.
    + destruct (om_rejects (om_model s) (placed_inputs w ids mask kwargs))
        as [e|] eqn:Hrej.
      * rewrite (OpenMoERunner_call_rejected s ids mask kwargs w e Hrej)
          in Hrun. by simplify_eq.
      * destruct (OpenMoERunner_call_ok s ids mask kwargs w Hinit Hrej)
          as (w1 & Hrun1 & Happ).
        rewrite Hrun1 in Hrun. simplify_eq.
        rewrite (appends_dom _ _ _ _ _ Happ). set_solver.
    + destruct (MixtralRunner_call_any s (Some ids) (Some mask) kwargs w)
        as (n & r0 & w1 & Hrun1 & _ & Hd & _).
      rewrite Hrun1 in Hrun. simplify_eq.
      rewrite Hd, dom_extend. set_solver.
  - intros Hacc.
    destruct (MoERunner_call_accepted self ids mask kwargs w Hinit Hacc)
      as (e & w1 & Hrun1 & Happ).
    rewrite Hrun1 in Hrun. simplify_eq.
    by rewrite (appends_dom _ _ _ _ _ Happ), captured_keys.
Qed.
End any_runner.

Lemma double_observers_attached : observers_attached Double.openmoe_runner.
Proof.
  split; [|reflexivity]. simpl.
  apply NoDup_cons. split; [|apply NoDup_singleton].
  rewrite list_elem_of_singleton. discriminate.
Qed.

(** The runners of the synthetic provider are what the factory builds. *)
Example from_name_builds_double_runners :
  from_name "mixtral" 16 (mkCtorKwargs None) (world_at_import false)
  = (Ok (AMixtralRunner (Double.runner true)), Double.built) ∧
  (from_name "openmoe" 16 (mkCtorKwargs None) (world_at_import false)).1
  = Ok (AnOpenMoERunner Double.openmoe_runner).
Proof. split; vm_compute; reflexivity. Qed.

Lemma infer_appends_one_entry_per_layer_witness :
  (∃ w', MoERunner_call (AMixtralRunner (Double.runner true))
           (Some Double.ids) (Some Double.mask) [] (world_at_import false)
         = (Ok MoERunner_activated_experts, w') ∧
     ∀ key,
       length (entries (deref w' MoERunner_activated_experts) key)
       = if decide (key ∈ layer_names (AMixtralRunner (Double.runner true))
                      (placed_inputs (world_at_import false)
                         Double.ids Double.mask []))
         then S (length (entries (deref (world_at_import false)
                                    MoERunner_activated_experts) key))
         else length (entries (deref (world_at_import false)
                                 MoERunner_activated_experts) key)) ∧
  (∃ w', MoERunner_call (AnOpenMoERunner Double.openmoe_runner)
           (Some Double.ids) (Some Double.mask) [] (world_at_import true)
         = (Ok 1, w') ∧
     ∀ key,
       length (entries (deref w' 1) key)
       = if decide (key ∈ layer_names (AnOpenMoERunner Double.openmoe_runner)
                      (placed_inputs (world_at_import true)
                         Double.ids Double.mask []))
         then S (length (entries (deref (world_at_import true) 1) key))
         else length (entries (deref (world_at_import true) 1) key)).
Proof.
  split.
  - apply (infer_appends_one_entry_per_layer
             (AMixtralRunner (Double.runner true)) Double.ids Double.mask []
             (world_at_import false)).
    + exact I.
    + split; [apply not_elem_of_nil|].
    exists Double.outputs. split; [reflexivity|].
      repeat constructor; simpl; lia.
  - apply (infer_appends_one_entry_per_layer
             (AnOpenMoERunner Double.openmoe_runner) Double.ids Double.mask []
             (world_at_import true)).
    + exact double_observers_attached.
    + reflexivity.
Defined.


Lemma infer_only_adds_layer_keys_witness :
  let w := world_at_import false in
  let self := AMixtralRunner (Double.runner true) in
  let w' := (MoERunner_call self (Some Double.ids) (Some Double.mask) [] w).2 in
  dom (deref w MoERunner_activated_experts)
  ⊆ dom (deref w' MoERunner_activated_experts) ∧
  (accepts self (placed_inputs w Double.ids Double.mask []) →
   dom (deref w' MoERunner_activated_experts)
   = dom (deref w MoERunner_activated_experts)
     ∪ list_to_set
         (layer_names self (placed_inputs w Double.ids Double.mask []))).
Proof.
  intros w self w'.
  apply (infer_only_adds_layer_keys self Double.ids Double.mask [] w
           (MoERunner_call self (Some Double.ids) (Some Double.mask) [] w).1 w').
  - exact I.
  - reflexivity.
Defined.

(** C4, as stated, fails: the record of a Mixtral runner the factory
    has just built has no key, and its first call adds the keys
    ["layer_0.router"] and ["layer_1.router"]. *)
Lemma record_keys_not_fixed_at_construction :
  let self := AMixtralRunner (Double.runner true) in
  let w0 := Double.built in
  let w1 := (MoERunner_call self (Some Double.ids) (Some Double.mask) [] w0).2 in
  from_name "mixtral" 16 (mkCtorKwargs None) (world_at_import false)
  = (Ok self, w0) ∧
  fully_initialized self ∧
  MoERunner_call self (Some Double.ids) (Some Double.mask) [] w0
  = (Ok (activated_experts self), w1) ∧
  dom (deref w0 (activated_experts self)) = ∅ ∧
  "layer_0.router" ∈ dom (deref w1 (activated_experts self)) ∧
  dom (deref w0 (activated_experts self))
  ≠ dom (deref w1 (activated_experts self)).
Proof.
  intros self w0 w1.
  assert (deref w0 (activated_experts self) = ∅) as Hbefore
    by (vm_compute; reflexivity).
  assert ("layer_0.router" ∈ dom (deref w1 (activated_experts self))) as Hin.
  { apply elem_of_dom. vm_compute. eauto. }
  split; [vm_compute; reflexivity|].
  split; [exact I|]. split; [vm_compute; reflexivity|].
  rewrite Hbefore, dom_empty_L. split; [done|]. split; [done|].
  intros Heq. rewrite <- Heq in Hin. by apply not_elem_of_empty in Hin.
Qed.

(** ** Shape and range of the derived selection *)


Section selection_facts.
Context `{TorchLaws}.


End selection_facts.


(** ** Construction and the factory *)

Section factory.
Context `{Torch} `{!Transformers}.




(** C10.  [MixtralRunner.__init__] loads from one of two sources, the
    quantized weights when [use_quant] is true or not given and the
    full-precision weights otherwise; once the tokenizer of that source
    is loaded, its pad token is set to its end-of-sequence token, and
    only then are the weights loaded, from the same source. *)
Theorem MixtralRunner_init_sources seq_len use_quant w tokenizer :
  let model_name :=
    if default true use_quant then "TheBloke/mixtral-8x7b-v0.1-AWQ"
    else "mistralai/Mixtral-8x7B-v0.1" in
  AutoTokenizer_from_pretrained model_name seq_len = Ok tokenizer →
  ∃ r w', MixtralRunner_init seq_len use_quant w = (r, w') ∧
    w_trace w'
    = w_trace w ++
      [TokenizerFromPretrained model_name seq_len;
       SetPadToken (eos_token tokenizer);
       ModelFromPretrained model_name "auto" torch_float16 true] ∧
    match MixtralForCausalLM_from_pretrained model_name "auto"
            torch_float16 true with
    | Ok model =>
        ∃ self, r = Ok self ∧
          mx_model_name self = model_name ∧ mx_model self = model ∧
          pad_token (mx_tokenizer self) = eos_token tokenizer ∧
          eos_token (mx_tokenizer self) = eos_token tokenizer
    | Raise e => r = Raise e
    end.
Proof.
  intros model_name Htok.
  unfold MixtralRunner_init, call, bind, emit. fold model_name.
  rewrite Htok. simpl.
  destruct (MixtralForCausalLM_from_pretrained model_name "auto"
              torch_float16 true) as [model|e]; simpl.
  - eexists _, _. split; [reflexivity|]. split.
    + simpl. by rewrite <- !app_assoc.
    + eexists. by repeat split.
  - eexists _, _. split; [reflexivity|]. split; [|done].
    simpl. by rewrite <- !app_assoc.
Qed.
End factory.


Lemma MixtralRunner_init_sources_witness :
  ∃ r w', MixtralRunner_init 16 None (world_at_import false) = (r, w') ∧
    w_trace w'
    = w_trace (world_at_import false) ++
      [TokenizerFromPretrained "TheBloke/mixtral-8x7b-v0.1-AWQ" 16;
       SetPadToken (Some "</s>");
       ModelFromPretrained "TheBloke/mixtral-8x7b-v0.1-AWQ" "auto"
         torch_float16 true] ∧
    match MixtralForCausalLM_from_pretrained "TheBloke/mixtral-8x7b-v0.1-AWQ"
            "auto" torch_float16 true with
    | Ok model =>
        ∃ self, r = Ok self ∧
          mx_model_name self = "TheBloke/mixtral-8x7b-v0.1-AWQ" ∧
          mx_model self = model ∧
          pad_token (mx_tokenizer self) = Some "</s>" ∧
          eos_token (mx_tokenizer self) = Some "</s>"
    | Raise e => r = Raise e
    end.
Proof.
  apply (MixtralRunner_init_sources 16 None (world_at_import false)
           (mkTokenizer "TheBloke/mixtral-8x7b-v0.1-AWQ" 16 None (Some "</s>"))).
  reflexivity.
Defined.

(** ** Ownership of the record *)

(** An OpenMoE runner gets a dictionary of its own: the one its
    constructor allocates, which no earlier runner can hold. *)
Lemma openmoe_runners_own_their_record `{Torch} `{!Transformers}
    seq_len1 seq_len2 w0 first w1 second w2 :
  OpenMoERunner_init seq_len1 w0 = (Ok first, w1) →
  OpenMoERunner_init seq_len2 w1 = (Ok second, w2) →
  om_activated_experts first ≠ om_activated_experts second.
Proof.
  unfold OpenMoERunner_init, call, bind, emit, set_openmoe_args, bind, emit,
    ret, set_router_hook, bind, emit, new_defaultdict, ret.
  intros Hrun1 Hrun2.
  destruct (AutoTokenizer_from_pretrained "google/umt5-small" seq_len1);
    [|by simplify_eq].
  destruct (AutoTokenizer_from_pretrained "google/umt5-small" seq_len2);
    [|by simplify_eq].
  destruct (AutoConfig_from_pretrained "OrionZheng/openmoe-8b-1T") as [c|];
    [|by simplify_eq].
  simpl in *.
  destruct (OpenMoeForCausalLM_from_pretrained "OrionZheng/openmoe-8b-1T"
              _ "auto" torch_float16); [|by simplify_eq].
  simplify_eq/=. lia.
Qed.

(** C5.  Mixtral runners do not own a record each: [MixtralRunner]
    never binds [activated_experts] on the instance, so every Mixtral
    runner reads the one dictionary of the class.  Two runners built one
    after the other, the quantized and the full-precision one: a call on
    the first appends to the record seen through the second. *)
Theorem mixtral_runners_share_one_record :
  (∀ (T : Torch) (self1 self2 : MixtralRunner),
     activated_experts (AMixtralRunner self1)
     = activated_experts (AMixtralRunner self2)) ∧
  ∃ w1 w2 w3,
    let first := AMixtralRunner (Double.runner true) in
    let second := AMixtralRunner (Double.runner false) in
    from_name "mixtral" 16 (mkCtorKwargs (Some true)) (world_at_import false)
    = (Ok first, w1) ∧
    from_name "mixtral" 16 (mkCtorKwargs (Some false)) w1 = (Ok second, w2) ∧
    first ≠ second ∧
    entries (deref w2 (activated_experts second)) "layer_0.router" = [] ∧
    MoERunner_call first (Some Double.ids) (Some Double.mask) [] w2
    = (Ok (activated_experts first), w3) ∧
    entries (deref w3 (activated_experts second)) "layer_0.router"
    = [mkTensor 2 [[0; 1]; [2; 3]]].
Proof.
  split; [done|].
  eexists _, _, _. simpl.
  split; [vm_compute; reflexivity|].
  split; [vm_compute; reflexivity|].
  split; [|split; [vm_compute; reflexivity|]].
  - intros Heq. apply (f_equal (λ r, match r with
                                     | AMixtralRunner s => mx_model_name s
                                     | AnOpenMoERunner s => om_model_name s
                                     end)) in Heq. discriminate.
  - split; vm_compute; reflexivity.
Qed.

(** ** Gradient tracking *)

(** A call of an OpenMoE runner runs its one forward pass with gradient
    tracking off, and leaves the gradient mode as it found it. *)
Lemma openmoe_forward_runs_without_gradients `{Torch}
    (self : OpenMoERunner) ids mask kwargs w :
  observers_attached self →
  ∃ r w', OpenMoERunner_call self (Some ids) (Some mask) kwargs w = (r, w') ∧
    w_trace w'
    = w_trace w ++ [Forward (om_model_name self)
                      (placed_inputs w ids mask kwargs) false false] ∧
    w_grad_enabled w' = w_grad_enabled w.
Proof.
  intros Hinit.
  destruct (om_rejects (om_model self) (placed_inputs w ids mask kwargs))
    as [e|] eqn:Hrej.
  - eexists _, _. split.
    + by apply OpenMoERunner_call_rejected.
    + done.
  - destruct (OpenMoERunner_call_ok self ids mask kwargs w Hinit Hrej)
      as (w' & Hrun & _ & _ & _ & Hgrad & _ & Htrace).
    by eexists _, _.
Qed.

(** C9.  A call of a Mixtral runner does not switch gradient tracking
    off: when it gets as far as its model, which it does whenever both
    tensors are given and [output_router_logits] is not passed a second
    time, it makes exactly one forward pass, in whatever gradient mode
    the caller is in, and after import that is the tracking mode. *)
Theorem mixtral_forward_keeps_gradient_mode :
  (∀ (T : Torch) (self : MixtralRunner) ids mask kwargs w,
     ∃ r w',
       MixtralRunner_call self (Some ids) (Some mask) kwargs w = (r, w') ∧
       w_trace w'
       = w_trace w ++
         (if decide ("output_router_logits" ∈ kwargs.*1) then []
          else [Forward (mx_model_name self)
                  (placed_inputs w ids mask kwargs) true
                  (w_grad_enabled w)])) ∧
  w_trace (MixtralRunner_call (Double.runner true) (Some Double.ids)
             (Some Double.mask) [] (world_at_import false)).2
  = [Forward "TheBloke/mixtral-8x7b-v0.1-AWQ"
       (mkInputs (Some Double.ids) (Some Double.mask) []) true true].
Proof.
  split; [|vm_compute; reflexivity].
  intros T self ids mask kwargs w.
  destruct (decide ("output_router_logits" ∈ kwargs.*1)) as [Hdup|Hfresh].
  - eexists _, w. split; [|by rewrite app_nil_r].
    apply MixtralRunner_call_unreached.
    rewrite reaches_model_present. apply bool_decide_eq_false_2.
    by intros Hfresh.
  - destruct (MixtralRunner_call_run
                (num_experts_per_tok (mx_config (mx_model self)))
                (mx_forward (mx_model self)
                   (placed_inputs w ids mask kwargs) true))
      as (n & r & _ & Hany).
    destruct (Hany self (Some ids) (Some mask) kwargs w)
      as (w' & Hrun & _ & _ & _ & _ & _ & Htrace); [|done|done|].
    { rewrite reaches_model_present. by apply bool_decide_eq_true_2. }
    by exists r, w'.
Qed.

(** * Further properties of the runners *)

(** ** Keys of the record *)

(** X1.  The key ["layer_{i}.router"] names its layer: two layer
    indices get the same key only when they are the same index, so the
    entries of different layers never land in one sequence. *)
Theorem layer_keys_distinct (i j : nat) : layer_key i = layer_key j ↔ i = j.
Proof.
  split; [|by intros ->].
  unfold layer_key. intros Heq.
  apply String.app_inj, string_app_inj_r in Heq.
  by apply (inj pretty) in Heq.
Qed.

(** ** Calls of a Mixtral runner that raise *)

Section mixtral_failures.
Context `{TorchLaws}.

Lemma filed_under_layer_entries k logits i :
  filed_under (layer_key i) (layer_entries k 0 logits)
  = match logits !! i with
    | Some t => [selected_experts_of k t]
    | None => []
    end.
Proof.
  destruct (logits !! i) as [t|] eqn:Hi.
  - apply filed_under_NoDup; [apply NoDup_layer_entries|].
    by apply (elem_of_layer_entries k 0 logits i t).
  - apply filed_under_notin. rewrite layer_entries_keys.
    intros Hin. apply list_elem_of_fmap in Hin as (j & Heq & Hj).
    apply layer_key_inj in Heq as ->.
    apply elem_of_seq in Hj. apply lookup_ge_None in Hi. lia.
Qed.

(** The loop stops at the first layer with fewer than [k] experts,
    keeping what it has filed for the layers before it. *)
Lemma record_layers_stops (self : MixtralRunner) i logits j narrow w :
  let k := num_experts_per_tok (mx_config (mx_model self)) in
  logits !! j = Some narrow →
  ¬ k ≤ t_cols (F_softmax narrow 1 torch_float) →
  Forall (λ t, k ≤ t_cols (F_softmax t 1 torch_float)) (take j logits) →
  ∃ w', record_layers self i logits w
        = (Raise (RuntimeError "selected index k out of range"), w') ∧
    appends MoERunner_activated_experts
      (layer_entries k i (take j logits)) w w'.
Proof.
  intros k. revert i j w.
  induction logits as [|t logits IH]; intros i j w Hj Hnarrow Hfit; [done|].
  destruct j as [|j]; simpl in Hj.
  - simplify_eq. exists w. split; [|apply appends_nil].
    simpl. unfold bind at 1. fold k. by rewrite (torch_topk_raises _ k Hnarrow).
  - simpl in Hfit. apply Forall_cons in Hfit as [Ht Hfit].
    destruct (append_entry_appends MoERunner_activated_experts (layer_key i)
                (selected_experts_of k t) w) as (w1 & Hrun1 & Happ1).
    destruct (IH (S i) j w1 Hj Hnarrow Hfit) as (w2 & Hrun2 & Happ2).
    exists w2. split.
    + simpl. unfold bind at 1. fold k. rewrite (torch_topk_ok _ k Ht).
      unfold bind at 1. simpl activated_experts.
      unfold selected_experts_of in Hrun1. rewrite Hrun1. exact Hrun2.
    + simpl take. rewrite layer_entries_cons.
      by apply (appends_app _ [_] _ w w1 w2).
Qed.

(** X2.  A call of a Mixtral runner is not undone when it fails half
    way: if the model is reached and layer [j] of the returned router
    logits has fewer experts than [num_experts_per_tok] while the layers
    before it have enough, the call raises the [RuntimeError] of [torch.topk], every layer before
    [j] has gained its entry all the same, and layer [j] and the layers
    after it have gained nothing. *)
Theorem mixtral_call_keeps_layers_before_failure
    (self : MixtralRunner) ids mask kwargs w outputs j narrow :
  let k := num_experts_per_tok (mx_config (mx_model self)) in
  let inputs := placed_inputs w ids mask kwargs in
  "output_router_logits" ∉ kwargs.*1 →
  mx_forward (mx_model self) inputs true = Ok outputs →
  router_logits outputs !! j = Some narrow →
  t_cols narrow < k →
  Forall (λ t, k ≤ t_cols t) (take j (router_logits outputs)) →
  ∃ w', MixtralRunner_call self (Some ids) (Some mask) kwargs w
        = (Raise (RuntimeError "selected index k out of range"), w') ∧
    (∀ i layer_router, i < j → router_logits outputs !! i = Some layer_router →
       entries (deref w' MoERunner_activated_experts) (layer_key i)
       = entries (deref w MoERunner_activated_experts) (layer_key i)
         ++ [selected_experts_of k layer_router]) ∧
    (∀ i, j ≤ i →
       entries (deref w' MoERunner_activated_experts) (layer_key i)
       = entries (deref w MoERunner_activated_experts) (layer_key i)).
Proof.
  intros k inputs Hfresh Hfwd Hj Hnarrow Hfit.
  assert (¬ k ≤ t_cols (F_softmax narrow 1 torch_float)) as Hnarrow'
    by (rewrite F_softmax_cols; lia).
  assert (Forall (λ t, k ≤ t_cols (F_softmax t 1 torch_float))
            (take j (router_logits outputs))) as Hfit'.
  { eapply Forall_impl; [exact Hfit|]. intros t Ht. simpl.
    by rewrite F_softmax_cols. }
  destruct (record_layers_stops self 0 (router_logits outputs) j narrow
    (logged (Forward (mx_model_name self) inputs true (w_grad_enabled w)) w)
    Hj Hnarrow' Hfit') as (w' & Hrun & Happ).
  exists w'. split; [|split].
  - rewrite MixtralRunner_call_present by done.
    unfold bind, Mixtral_forward, call, bind, torch_is_grad_enabled, emit.
    fold inputs. by rewrite Hfwd, Hrun.
  - intros i layer_router Hi Hlayer.
    rewrite (appends_entries _ _ _ _ _ (layer_key i) Happ).
    by rewrite filed_under_layer_entries, lookup_take_lt, Hlayer.
  - intros i Hi.
    rewrite (appends_entries _ _ _ _ _ (layer_key i) Happ).
    rewrite filed_under_layer_entries, lookup_take_ge by done.
    by rewrite app_nil_r.
Qed.

(** X3.  When the model is reached and its forward pass raises, a call
    of a Mixtral runner raises the same exception, untranslated, having
    logged the one forward pass and changed nothing else: no dictionary
    in the store, the record included, is touched. *)
Theorem mixtral_call_propagates_forward_failure
    (self : MixtralRunner) ids mask kwargs w e :
  let inputs := placed_inputs w ids mask kwargs in
  "output_router_logits" ∉ kwargs.*1 →
  mx_forward (mx_model self) inputs true = Raise e →
  ∃ w', MixtralRunner_call self (Some ids) (Some mask) kwargs w = (Raise e, w') ∧
    w_heap w' = w_heap w ∧
    w_trace w'
    = w_trace w ++ [Forward (mx_model_name self) inputs true
                      (w_grad_enabled w)] ∧
    same_but_heap (logged (Forward (mx_model_name self) inputs true
                             (w_grad_enabled w)) w) w'.
Proof.
  intros inputs Hfresh Hfwd. eexists. split.
  - rewrite MixtralRunner_call_present by done.
    unfold bind, Mixtral_forward, call, bind, torch_is_grad_enabled, emit.
    fold inputs. by rewrite Hfwd.
  - by repeat split.
Qed.

(** X4.  Whatever its arguments, given or left at [None], and whatever
    its outcome, a call of a Mixtral runner writes to no dictionary but
    the one of the class [MoERunner], so the record of an OpenMoE runner
    is never changed by it; it allocates nothing, leaves the gradient
    mode alone, and in the class dictionary it only ever appends: each
    sequence after the call starts with the sequence before it. *)
Theorem mixtral_call_touches_only_the_class_record
    (self : MixtralRunner) (ids mask : option LongTensor) kwargs w :
  let w' := (MixtralRunner_call self ids mask kwargs w).2 in
  (∀ b, b ≠ MoERunner_activated_experts → w_heap w' !! b = w_heap w !! b) ∧
  w_next w' = w_next w ∧
  w_grad_enabled w' = w_grad_enabled w ∧
  ∀ key,
    entries (deref w MoERunner_activated_experts) key
    `prefix_of` entries (deref w' MoERunner_activated_experts) key.
Proof.
  intros w'. subst w'.
  destruct (MixtralRunner_call_any self ids mask kwargs w)
    as (n & r & w' & Hrun & _ & Hd & Hframe & Hnext & Hgrad & _).
  rewrite Hrun. simpl. repeat split; try done.
  intros key. rewrite Hd, entries_extend. by eexists.
Qed.
End mixtral_failures.

Lemma mixtral_call_keeps_layers_before_failure_witness :
  ∃ w', MixtralRunner_call (Double.runner_of Double.ragged) (Some Double.ids)
          (Some Double.mask) [] (world_at_import false)
        = (Raise (RuntimeError "selected index k out of range"), w') ∧
    (∀ i (layer_router : Tensor (@scalar Double.torch)), i < 1 →
       [Double.logits; Double.narrow] !! i = Some layer_router →
       entries (deref w' MoERunner_activated_experts) (layer_key i)
       = entries (deref (world_at_import false) MoERunner_activated_experts)
           (layer_key i) ++ [selected_experts_of 2 layer_router]) ∧
    (∀ i, 1 ≤ i →
       entries (deref w' MoERunner_activated_experts) (layer_key i)
       = entries (deref (world_at_import false) MoERunner_activated_experts)
           (layer_key i)).
Proof.
  apply (mixtral_call_keeps_layers_before_failure
           (Double.runner_of Double.ragged) Double.ids Double.mask []
           (world_at_import false)
           (mkOutput [Double.logits; Double.narrow]) 1 Double.narrow).
  - apply not_elem_of_nil.
  - reflexivity.
  - reflexivity.
  - simpl. lia.
  - simpl. repeat constructor.
Defined.

Lemma mixtral_call_propagates_forward_failure_witness :
  ∃ w', MixtralRunner_call (Double.runner_of Double.broken) (Some Double.ids)
          (Some Double.mask) [] (world_at_import true)
        = (Raise (RuntimeError "CUDA out of memory"), w') ∧
    w_heap w' = w_heap (world_at_import true) ∧
    w_trace w'
    = w_trace (world_at_import true) ++
      [Forward "TheBloke/mixtral-8x7b-v0.1-AWQ"
         (placed_inputs (world_at_import true) Double.ids Double.mask [])
         true true] ∧
    same_but_heap
      (logged (Forward "TheBloke/mixtral-8x7b-v0.1-AWQ"
                 (placed_inputs (world_at_import true) Double.ids
                    Double.mask []) true true) (world_at_import true)) w'.
Proof.
  apply (mixtral_call_propagates_forward_failure
           (Double.runner_of Double.broken) Double.ids Double.mask []
           (world_at_import true) (RuntimeError "CUDA out of memory")).
  - apply not_elem_of_nil.
  - reflexivity.
Defined.

(** ** Calls in sequence *)

Section mixtral_sequences.
Context `{TorchLaws}.

Lemma MixtralRunner_calls_accumulate (self : MixtralRunner) c batches :
  let k := num_experts_per_tok (mx_config (mx_model self)) in
  ∀ w, w_cuda_available w = c →
    Forall (λ batch, accepts (AMixtralRunner self) (batch_inputs c batch))
      batches →
    ∃ w', MixtralRunner_calls self batches w = (Ok (), w') ∧
      ∀ i,
        entries (deref w' MoERunner_activated_experts) (layer_key i)
        = entries (deref w MoERunner_activated_experts) (layer_key i)
          ++ omap (λ batch,
                     selected_experts_of k <$> batch_logits self c batch !! i)
               batches.
Proof.
  intros k. induction batches as [|[[ids mask] kwargs] batches IH];
    intros w Hc Hvalid.
  - exists w. split; [done|]. intros i. simpl. by rewrite app_nil_r.
  - apply Forall_cons in Hvalid as [Hacc Hvalid].
    assert (batch_inputs c (ids, mask, kwargs)
            = placed_inputs w ids mask kwargs) as Hinputs.
    { unfold batch_inputs, placed_inputs, placed. by rewrite Hc. }
    rewrite Hinputs in Hacc.
    destruct (MoERunner_call_accepted (AMixtralRunner self) ids mask kwargs w
                I Hacc) as (e & w1 & Hrun1 & Happ1).
    assert (w_cuda_available w1 = c) as Hc1.
    { destruct Happ1 as (_ & _ & _ & _ & Hcuda & _). by rewrite Hcuda. }
    destruct (IH w1 Hc1 Hvalid) as (w2 & Hrun2 & Hentries).
    exists w2. split.
    + simpl in Hrun1. simpl. unfold bind. by rewrite Hrun1.
    + intros i. rewrite Hentries. simpl activated_experts in Happ1.
      rewrite (appends_entries _ _ _ _ _ (layer_key i) Happ1).
      simpl captured. fold k. rewrite filed_under_layer_entries.
      rewrite <- app_assoc. f_equal. simpl omap.
      unfold batch_logits at 2. rewrite Hinputs.
      by destruct (result_logits _ !! i).
Qed.

(** X5.  Calls of a Mixtral runner add up: after any number of calls
    on valid inputs, one after the other, the sequence of layer [i] is
    the sequence it held before followed by one index tensor per call,
    in call order, each the selection derived from the logits its call
    got for layer [i] (a call whose output has no layer [i] adds
    nothing there). *)
Theorem mixtral_calls_accumulate_in_call_order
    (self : MixtralRunner) (batches : list Batch) w :
  let k := num_experts_per_tok (mx_config (mx_model self)) in
  let c := w_cuda_available w in
  Forall (λ batch, accepts (AMixtralRunner self) (batch_inputs c batch))
    batches →
  ∃ w', MixtralRunner_calls self batches w = (Ok (), w') ∧
    ∀ i,
      entries (deref w' MoERunner_activated_experts) (layer_key i)
      = entries (deref w MoERunner_activated_experts) (layer_key i)
        ++ omap (λ batch,
                   selected_experts_of k <$> batch_logits self c batch !! i)
             batches.
Proof.
  intros k c Hvalid.
  by apply (MixtralRunner_calls_accumulate self c batches w).
Qed.
End mixtral_sequences.

Lemma mixtral_calls_accumulate_in_call_order_witness :
  ∃ w', MixtralRunner_calls (Double.runner true)
          [(Double.ids, Double.mask, []); (Double.mask, Double.ids, []);
           (Double.ids, Double.ids, [])] (world_at_import true)
        = (Ok (), w') ∧
    ∀ i,
      entries (deref w' MoERunner_activated_experts) (layer_key i)
      = entries (deref (world_at_import true) MoERunner_activated_experts)
          (layer_key i)
        ++ omap (λ batch,
                   selected_experts_of 2
                   <$> batch_logits (Double.runner true) true batch !! i)
             [(Double.ids, Double.mask, []); (Double.mask, Double.ids, []);
              (Double.ids, Double.ids, [])].
Proof.
  apply (mixtral_calls_accumulate_in_call_order (Double.runner true)
           [(Double.ids, Double.mask, []); (Double.mask, Double.ids, []);
            (Double.ids, Double.ids, [])] (world_at_import true)).
  repeat constructor; try apply not_elem_of_nil;
    exists Double.outputs; split; try reflexivity;
    repeat constructor; simpl; lia.
Defined.

(** ** Construction that fails, and construction step by step *)

Section construction.
Context `{Torch} `{!Transformers}.

(** X6.  When the tokenizer of the chosen source cannot be loaded,
    [from_name("mixtral", ..)] raises the provider's exception as it is
    and stops there: the only call made is the tokenizer load; the pad
    token is not set, no weights are loaded and no runner comes back. *)
Theorem from_name_mixtral_stops_at_tokenizer_failure seq_len kwargs w e :
  let model_name :=
    if default true (kw_use_quant kwargs)
    then "TheBloke/mixtral-8x7b-v0.1-AWQ"
    else "mistralai/Mixtral-8x7B-v0.1" in
  AutoTokenizer_from_pretrained model_name seq_len = Raise e →
  from_name "mixtral" seq_len kwargs w
  = (Raise e, logged (TokenizerFromPretrained model_name seq_len) w).
Proof.
  intros model_name Htok.
  unfold from_name. rewrite decide_False by done. rewrite decide_True by done.
  unfold bind at 1, MixtralRunner_init, call, bind, emit. fold model_name.
  by rewrite Htok.
Qed.

(** X7.  [OpenMoERunner.__init__] goes through its providers in one
    fixed order: the tokenizer ["google/umt5-small"] with the given
    maximal length, the configuration of the OpenMoE model, the override
    of that configuration (expert count and layer interval as loaded,
    kernel off), the weights with the overridden configuration in
    half precision, and last the router hooks.  The runner holds that
    tokenizer and, as its record, the accumulator made for the hooks: a
    dictionary that did not exist before and is empty. *)
Theorem OpenMoERunner_init_steps seq_len w tokenizer config model :
  let model_name := "OrionZheng/openmoe-8b-1T" in
  AutoTokenizer_from_pretrained "google/umt5-small" seq_len = Ok tokenizer →
  AutoConfig_from_pretrained model_name = Ok config →
  OpenMoeForCausalLM_from_pretrained model_name
    (mkOpenMoeConfig (cfg_num_experts config) (cfg_moe_layer_interval config)
       false) "auto" torch_float16 = Ok model →
  ∃ self w', OpenMoERunner_init seq_len w = (Ok self, w') ∧
    w_trace w'
    = w_trace w ++
      [TokenizerFromPretrained "google/umt5-small" seq_len;
       ConfigFromPretrained model_name;
       SetOpenMoeArgs (cfg_num_experts config) (cfg_moe_layer_interval config)
         false;
       ModelFromPretrained model_name "auto" torch_float16 false;
       SetRouterHook model_name] ∧
    om_model_name self = model_name ∧
    om_tokenizer self = tokenizer ∧
    om_activated_experts self = w_next w ∧
    w_next w' = S (w_next w) ∧
    deref w' (om_activated_experts self) = ∅ ∧
    (∀ b, b ≠ om_activated_experts self → w_heap w' !! b = w_heap w !! b).
Proof.
  intros model_name Htok Hcfg Hmodel. eexists _, _. split.
  - unfold OpenMoERunner_init, call, bind, emit, set_openmoe_args, bind,
      emit, ret, set_router_hook, bind, emit, new_defaultdict, ret.
    fold model_name. rewrite Htok, Hcfg. simpl. rewrite Hmodel. reflexivity.
  - simpl. repeat split.
    + by rewrite <- !app_assoc.
    + unfold deref. simpl. by rewrite lookup_insert_eq.
    + intros b Hb. by rewrite lookup_insert_ne.
Qed.

(** X8.  A constructor that raises has made no accumulator: when
    [OpenMoERunner.__init__] fails, at whichever provider, the store of
    dictionaries is exactly as before, and when it succeeds exactly one
    dictionary was made, the runner's; [MixtralRunner.__init__] never
    makes or replaces a dictionary, whether it fails or succeeds. *)
Theorem failed_construction_allocates_nothing seq_len use_quant w :
  let openmoe := OpenMoERunner_init seq_len w in
  let mixtral := MixtralRunner_init seq_len use_quant w in
  match openmoe.1 with
  | Raise _ => w_heap openmoe.2 = w_heap w ∧ w_next openmoe.2 = w_next w
  | Ok self =>
      w_heap openmoe.2 = <[om_activated_experts self := ∅]> (w_heap w) ∧
      om_activated_experts self = w_next w ∧
      w_next openmoe.2 = S (w_next w)
  end ∧
  w_heap mixtral.2 = w_heap w ∧ w_next mixtral.2 = w_next w.
Proof.
  intros openmoe mixtral. subst openmoe mixtral. split.
  - unfold OpenMoERunner_init, call, bind, emit, set_openmoe_args, bind,
      emit, ret, set_router_hook, bind, emit, new_defaultdict, ret.
    destruct (AutoTokenizer_from_pretrained "google/umt5-small" seq_len);
      [|done].
    destruct (AutoConfig_from_pretrained "OrionZheng/openmoe-8b-1T");
      [|done].
    simpl.
    by destruct (OpenMoeForCausalLM_from_pretrained _ _ _ _).
  - unfold MixtralRunner_init, call, bind, emit.
    destruct (AutoTokenizer_from_pretrained _ seq_len); [|done].
    simpl. by destruct (MixtralForCausalLM_from_pretrained _ _ _ _).
Qed.
End construction.

Lemma from_name_mixtral_stops_at_tokenizer_failure_witness :
  @from_name Double.torch Double.offline "mixtral" 16 (mkCtorKwargs None)
    (world_at_import false)
  = (Raise (OSError "offline"),
     logged (TokenizerFromPretrained "TheBloke/mixtral-8x7b-v0.1-AWQ" 16)
       (world_at_import false)).
Proof.
  apply (@from_name_mixtral_stops_at_tokenizer_failure Double.torch
           Double.offline 16 (mkCtorKwargs None) (world_at_import false)
           (OSError "offline")).
  reflexivity.
Defined.

Lemma OpenMoERunner_init_steps_witness :
  ∃ self w', OpenMoERunner_init 16 (world_at_import false) = (Ok self, w') ∧
    w_trace w'
    = w_trace (world_at_import false) ++
      [TokenizerFromPretrained "google/umt5-small" 16;
       ConfigFromPretrained "OrionZheng/openmoe-8b-1T";
       SetOpenMoeArgs 32 4 false;
       ModelFromPretrained "OrionZheng/openmoe-8b-1T" "auto" torch_float16
         false;
       SetRouterHook "OrionZheng/openmoe-8b-1T"] ∧
    om_model_name self = "OrionZheng/openmoe-8b-1T" ∧
    om_tokenizer self = mkTokenizer "google/umt5-small" 16 None (Some "</s>") ∧
    om_activated_experts self = w_next (world_at_import false) ∧
    w_next w' = S (w_next (world_at_import false)) ∧
    deref w' (om_activated_experts self) = ∅ ∧
    (∀ b, b ≠ om_activated_experts self →
       w_heap w' !! b = w_heap (world_at_import false) !! b).
Proof.
  apply (OpenMoERunner_init_steps 16 (world_at_import false)
           (mkTokenizer "google/umt5-small" 16 None (Some "</s>"))
           (mkOpenMoeConfig 32 4 true) Double.openmoe); reflexivity.
Defined.

(** ** Gradient mode and device placement *)

Section placement.
Context `{Torch}.

Lemma same_but_heap_trans w1 w2 w3 :
  same_but_heap w1 w2 → same_but_heap w2 w3 → same_but_heap w1 w3.
Proof.
  intros (? & ? & ? & ?) (? & ? & ? & ?). repeat split; congruence.
Qed.

Lemma run_hooks_frame hooks router decision w :
  ∃ w', run_hooks hooks router decision w = (Ok (), w') ∧ same_but_heap w w'.
Proof.
  revert w. induction hooks as [|[r acc] hooks IH]; intros w.
  - exists w. by repeat split.
  - simpl. unfold bind at 1. destruct (decide (r = router)) as [->|Hne].
    + simpl. destruct (IH (set_heap
        (<[acc := <[router := entries (deref w acc) router ++ [decision]]>
                    (deref w acc)]> (w_heap w)) w)) as (w' & Hrun & Hsame).
      exists w'. split; [exact Hrun|].
      destruct Hsame as (? & ? & ? & ?). by repeat split.
    + simpl. apply IH.
Qed.

Lemma run_routers_frame (model : OpenMoeForCausalLM) routers inputs w :
  ∃ w', run_routers model routers inputs w = (Ok (), w') ∧ same_but_heap w w'.
Proof.
  revert w. induction routers as [|r routers IH]; intros w.
  - exists w. by repeat split.
  - destruct (run_hooks_frame (om_hooks model) r (om_selected model r inputs) w)
      as (w1 & Hrun1 & Hsame1).
    destruct (IH w1) as (w2 & Hrun2 & Hsame2).
    exists w2. split.
    + simpl. unfold bind. by rewrite Hrun1.
    + by apply same_but_heap_trans with w1.
Qed.

(** A call of an OpenMoE runner that reaches the model, whatever hooks
    the model carries: one forward pass is logged, made with gradient
    tracking off, and the world is otherwise as before but for the
    dictionaries. *)
Lemma OpenMoERunner_call_reached (self : OpenMoERunner) ids mask kwargs w :
  can_place w ids mask = true →
  ∃ r w', OpenMoERunner_call self ids mask kwargs w = (r, w') ∧
    same_but_heap
      (logged (Forward (om_model_name self) (passed_inputs w ids mask kwargs)
                 false false) w) w'.
Proof.
  intros Hplace.
  unfold OpenMoERunner_call, torch_no_grad. unfold bind at 1.
  rewrite (place_inputs_ok ids mask (set_grad_enabled false w)) by done.
  unfold OpenMoe_forward, bind, torch_is_grad_enabled, emit.
  simpl w_grad_enabled.
  change (mkInputs _ _ kwargs) with (passed_inputs w ids mask kwargs).
  destruct (om_rejects (om_model self) (passed_inputs w ids mask kwargs))
    as [e|].
  - eexists _, _. split; [reflexivity|]. by repeat split.
  - destruct (run_routers_frame (om_model self) (om_routers (om_model self))
      (passed_inputs w ids mask kwargs)
      (logged (Forward (om_model_name self) (passed_inputs w ids mask kwargs)
                 false false) (set_grad_enabled false w)))
      as (w' & Hrun & Hnext & Hgrad & Hcuda & Htrace).
    rewrite Hrun. eexists _, _. split; [reflexivity|].
    by repeat split.
Qed.

Lemma OpenMoERunner_call_unreached (self : OpenMoERunner) ids mask kwargs w :
  can_place w ids mask = false →
  OpenMoERunner_call self ids mask kwargs w
  = (Raise (early_error w ids mask), w).
Proof.
  intros Hplace.
  unfold OpenMoERunner_call, torch_no_grad, early_error. unfold bind at 1.
  rewrite (place_inputs_fails ids mask (set_grad_enabled false w)) by done.
  rewrite Hplace. by destruct w.
Qed.

(** X9.  [OpenMoERunner.__call__] runs under [torch.no_grad()]: its
    forward pass is made with gradient tracking off whatever mode the
    caller is in, and the caller's mode is back in place when the call
    ends, whether it returns or raises. *)
Theorem openmoe_call_restores_gradient_mode
    (self : OpenMoERunner) ids mask kwargs w :
  let w' := (OpenMoERunner_call self (Some ids) (Some mask) kwargs w).2 in
  w_grad_enabled w' = w_grad_enabled w ∧
  w_trace w'
  = w_trace w ++ [Forward (om_model_name self)
                    (placed_inputs w ids mask kwargs) false false].
Proof.
  intros w'. subst w'.
  destruct (OpenMoERunner_call_reached self (Some ids) (Some mask) kwargs w)
    as (r & w' & Hrun & _ & Hgrad & _ & Htrace).
  { unfold can_place. rewrite !bool_decide_eq_true_2 by eauto.
    apply orb_true_r. }
  rewrite Hrun. by split.
Qed.

(** X10.  A call of a runner, of either variant, enters its model at
    most once.  It enters it, exactly once and whatever happens next,
    when the inputs can be placed (CUDA is not available, or both
    tensors are given) and, for the Mixtral variant, the extra keywords
    do not name [output_router_logits]; the model then gets both tensors
    moved to CUDA when CUDA is available and as they came otherwise, a
    tensor left at [None] staying [None], and the extra keywords as they
    are, with [output_router_logits=True] from the Mixtral runner only.
    Otherwise the call raises before the model is entered, an
    [AttributeError] for a [None] tensor that cannot be moved and a
    [TypeError] for the keyword given twice, and the world is as it
    was. *)
Theorem call_enters_model_at_most_once
    (self : MoERunner) (ids mask : option LongTensor) kwargs w :
  let out := MoERunner_call self ids mask kwargs w in
  if reaches_model self w ids mask kwargs then
    ∃ grad,
      w_trace out.2
      = w_trace w ++
        [Forward
           (match self with
            | AnOpenMoERunner r => om_model_name r
            | AMixtralRunner r => mx_model_name r
            end)
           (mkInputs (placed w <$> ids) (placed w <$> mask) kwargs)
           (match self with AMixtralRunner _ => true | _ => false end) grad]
  else out = (Raise (early_error w ids mask), w).
Proof.
  intros out. subst out.
  destruct (reaches_model self w ids mask kwargs) eqn:Hreach.
  - destruct self as [r|r]; simpl.
    + unfold reaches_model in Hreach. rewrite andb_true_r in Hreach.
      destruct (OpenMoERunner_call_reached r ids mask kwargs w Hreach)
        as (res & w' & Hrun & _ & _ & _ & Htrace).
      rewrite Hrun. by exists false.
    + destruct (MixtralRunner_call_run
                  (num_experts_per_tok (mx_config (mx_model r)))
                  (mx_forward (mx_model r)
                     (passed_inputs w ids mask kwargs) true))
        as (n & res & _ & Hany).
      destruct (Hany r ids mask kwargs w Hreach eq_refl eq_refl)
        as (w' & Hrun & _ & _ & _ & _ & _ & Htrace).
      rewrite Hrun. by exists (w_grad_enabled w).
  - destruct self as [r|r]; simpl.
    + unfold reaches_model in Hreach. rewrite andb_true_r in Hreach.
      by apply OpenMoERunner_call_unreached.
    + by apply MixtralRunner_call_unreached.
Qed.
End placement.
